(** * Mean-reversion Bollinger-band strategy (ch03/algorithms.py)

    A shallow embedding of the strategy's callbacks and the properties
    its design document states about them.

    Numbers.  Share amounts, the trade size, the two thresholds and the
    two counters are Python integers in the source and are integers
    here.  Prices, cost bases, band values and percentages are floats;
    a finite float is idealised as an exact rational, so rounding is
    not modelled, and [Float] adds the two infinities and NaN.

    Division.  [/] on built-in numbers raises [ZeroDivisionError] on a
    zero divisor ([truediv]); on numpy numbers and in the columns of a
    pipeline it returns an infinity or NaN instead ([fdiv]).

    The risk check is embedded twice.  [check_profit_loss] reads quoted
    prices, finite built-in numbers; most properties are stated on it.
    [check_profit_loss_float] reads whatever the platform can report,
    a missing price (NaN) included, as built-in or as numpy numbers;
    it agrees with the first on quoted prices.

    Effects.  The callbacks mutate the [context] object and call into
    the host platform (orders, log lines, recorded variables).  They are
    written in a small monad that threads the context, collects the
    platform calls in order and propagates a raised exception. *)

From Stdlib Require Import ZArith QArith Lqa List String Bool Lia.
From Stdlib Require Import Permutation Sorted.
Import ListNotations.

Local Open Scope string_scope.
Local Open Scope list_scope.
Local Open Scope Z_scope.

(** ** Numbers *)

(** [x > y] on rationals, as a boolean. *)
Definition Qgtb (x y : Q) : bool := negb (Qle_bool x y).

(** A float: a finite value, an infinity or NaN.  Rounding, overflow
    and the sign of zero are left out. *)
Inductive Float : Type :=
| Finite (q : Q)
| PosInf
| NegInf
| NaN.

Inductive Sign : Type :=
| Positive
| Zero
| Negative.

Definition sign_of_Q (q : Q) : Sign :=
  if Qgtb q 0 then Positive else if Qgtb 0 q then Negative else Zero.

Definition sign_mul (s t : Sign) : Sign :=
  match s, t with
  | Zero, _ | _, Zero => Zero
  | Positive, Positive | Negative, Negative => Positive
  | _, _ => Negative
  end.

(** The infinity of a sign; an undetermined sign gives NaN. *)
Definition infinity (s : Sign) : Float :=
  match s with
  | Positive => PosInf
  | Negative => NegInf
  | Zero => NaN
  end.

Definition fsign (x : Float) : Sign :=
  match x with
  | Finite q => sign_of_Q q
  | PosInf => Positive
  | NegInf => Negative
  | NaN => Zero
  end.

Definition is_zero (x : Float) : bool :=
  match x with
  | Finite q => Qeq_bool q 0
  | _ => false
  end.

(** [- x]. *)
Definition fneg (x : Float) : Float :=
  match x with
  | Finite q => Finite (- q)
  | PosInf => NegInf
  | NegInf => PosInf
  | NaN => NaN
  end.

(** [x - y]. *)
Definition fsub (x y : Float) : Float :=
  match x, y with
  | NaN, _ | _, NaN => NaN
  | Finite a, Finite b => Finite (a - b)
  | PosInf, PosInf | NegInf, NegInf => NaN
  | PosInf, _ => PosInf
  | NegInf, _ => NegInf
  | Finite _, PosInf => NegInf
  | Finite _, NegInf => PosInf
  end.

(** [x * y]: an infinity times zero is NaN. *)
Definition fmul (x y : Float) : Float :=
  match x, y with
  | NaN, _ | _, NaN => NaN
  | Finite a, Finite b => Finite (a * b)
  | _, _ => infinity (sign_mul (fsign x) (fsign y))
  end.

(** [x / y] where a zero divisor does not raise: a finite value over
    zero is the infinity of its sign, zero over zero is NaN. *)
Definition fdiv (x y : Float) : Float :=
  match x, y with
  | NaN, _ | _, NaN => NaN
  | Finite a, Finite b =>
      if Qeq_bool b 0 then infinity (sign_of_Q a) else Finite (a / b)
  | Finite _, _ => Finite 0
  | _, Finite b =>
      if Qeq_bool b 0 then x else infinity (sign_mul (fsign x) (sign_of_Q b))
  | _, _ => NaN
  end.

(** [x > y]: false as soon as one side is NaN. *)
Definition fgt (x y : Float) : bool :=
  match x, y with
  | NaN, _ | _, NaN => false
  | Finite a, Finite b => Qgtb a b
  | PosInf, PosInf => false
  | PosInf, _ => true
  | _, PosInf => false
  | NegInf, _ => false
  | Finite _, NegInf => true
  end.

(** Exceptions the modelled statements can raise. *)
Inductive Exception : Type :=
| ZeroDivisionError
| KeyError.

(** Outcome of running a statement: normal completion or an exception. *)
Inductive Outcome (A : Type) : Type :=
| Ok (a : A)
| Raised (e : Exception).
Arguments Ok {A} a.
Arguments Raised {A} e.

(** ** Data model *)

(** A security is an opaque identifier, used as a key. *)
Definition Security : Type := string.
Bind Scope string_scope with Security.

(** [security in xs] for a Python list. *)
Definition contains (xs : list Security) (security : Security) : bool :=
  existsb (String.eqb security) xs.

(** A Python dict keyed by securities, in insertion order. *)
Definition Dict (V : Type) : Type := list (Security * V).

Definition keys {V} (d : Dict V) : list Security := map fst d.

Fixpoint lookup {V} (d : Dict V) (k : Security) : option V :=
  match d with
  | [] => None
  | (k', v) :: d' => if String.eqb k k' then Some v else lookup d' k
  end.

(** [position.amount], [position.cost_basis]. *)
Record Position : Type := mkPosition {
  amount : Z;
  cost_basis : Q
}.

(** The [context] object: the attributes [initialize] and
    [before_trading_start] assign, and the open positions of
    [context.portfolio.positions], which the platform owns. *)
Record Context : Type := mkContext {
  NUM_SYMBOLS : nat;
  TRADE_SIZE : Z;
  MIN_PROFIT_PERCENT : Z;
  MAX_LOSS_PERCENT : Z;
  winners : Z;
  losers : Z;
  buy : list Security;
  sell : list Security;
  positions : Dict Position
}.

(** [data.current(security, 'price')] where every price is quoted: a
    finite built-in number. *)
Record Data : Type := mkData {
  current : Security -> Q
}.

(** One row of the pipeline's output frame. *)
Record IndicatorRow : Type := mkRow {
  row_buy_percent : Float;
  row_lower_band : Q;
  row_buy : bool;
  row_price : Q;
  row_sell : bool;
  row_upper_band : Q;
  row_sell_percent : Float
}.

Definition Frame : Type := list (Security * IndicatorRow).

(** Text handed to [log.info]; the format is kept as structure. *)
Inductive Message : Type :=
| Flattening (security : Security) (position_amount : Z) (position_price : Q)
             (current_price : Float) (profit loss : bool)
| BuySignals (rows : Frame)
| SellSignals (rows : Frame)
| Buying (security : Security)
| Selling (security : Security).

(** Calls into the host platform, in the order they are made. *)
Inductive Event : Type :=
| OrderTargetPercent (security : Security) (target : Q)
| OrderTargetValue (security : Security) (target : Z)
| RecordVar (name : string) (value : Q)
| LogInfo (msg : Message)
| SetCommissionPerShare (cost : Q)
| AttachPipeline (name : string)
| ScheduleGenerateEntries (minutes_after_open : Z).

(** ** The effect monad *)

Definition M (A : Type) : Type := Context -> Outcome A * Context * list Event.

Definition ret {A} (a : A) : M A := fun c => (Ok a, c, []).

Definition bind {A B} (m : M A) (f : A -> M B) : M B :=
  fun c =>
    match m c with
    | (Ok a, c1, e1) =>
        match f a c1 with
        | (r, c2, e2) => (r, c2, e1 ++ e2)
        end
    | (Raised x, c1, e1) => (Raised x, c1, e1)
    end.

Declare Scope py_scope.
Delimit Scope py_scope with py.
Notation "x <- m ;; k" := (bind m (fun x => k))
  (at level 61, m at next level, right associativity) : py_scope.
Notation "m ;; k" := (bind m (fun _ => k))
  (at level 61, right associativity) : py_scope.
Local Open Scope py_scope.

Definition raise {A} (x : Exception) : M A := fun c => (Raised x, c, []).
Definition get_context : M Context := fun c => (Ok c, c, []).
Definition emit (e : Event) : M unit := fun c => (Ok tt, c, [e]).

(** [for x in xs: body]. *)
Fixpoint for_each {A} (xs : list A) (body : A -> M unit) : M unit :=
  match xs with
  | [] => ret tt
  | x :: xs' => body x ;; for_each xs' body
  end.

(** Projections of a run. *)
Definition outcome_of {A} (r : Outcome A * Context * list Event) : Outcome A :=
  fst (fst r).
Definition context_of {A} (r : Outcome A * Context * list Event) : Context :=
  snd (fst r).
Definition events_of {A} (r : Outcome A * Context * list Event) : list Event :=
  snd r.

(** ** Primitive statements *)

(** [a / b] on finite built-in numbers, integers or floats. *)
Definition truediv (a b : Q) : M Q :=
  if Qeq_bool b 0 then raise ZeroDivisionError else ret (a / b)%Q.

(** [d[k]]. *)
Definition getitem {V} (d : Dict V) (k : Security) : M V :=
  match lookup d k with
  | Some v => ret v
  | None => raise KeyError
  end.

Definition set_winners (w : Z) : M unit :=
  fun c => (Ok tt,
            mkContext (NUM_SYMBOLS c) (TRADE_SIZE c) (MIN_PROFIT_PERCENT c)
                      (MAX_LOSS_PERCENT c) w (losers c) (buy c) (sell c)
                      (positions c), []).

Definition set_losers (l : Z) : M unit :=
  fun c => (Ok tt,
            mkContext (NUM_SYMBOLS c) (TRADE_SIZE c) (MIN_PROFIT_PERCENT c)
                      (MAX_LOSS_PERCENT c) (winners c) l (buy c) (sell c)
                      (positions c), []).

Definition set_signals (b s : list Security) : M unit :=
  fun c => (Ok tt,
            mkContext (NUM_SYMBOLS c) (TRADE_SIZE c) (MIN_PROFIT_PERCENT c)
                      (MAX_LOSS_PERCENT c) (winners c) (losers c) b s
                      (positions c), []).

(** The platform replaces the portfolio between callbacks. *)
Definition set_positions (p : Dict Position) : M unit :=
  fun c => (Ok tt,
            mkContext (NUM_SYMBOLS c) (TRADE_SIZE c) (MIN_PROFIT_PERCENT c)
                      (MAX_LOSS_PERCENT c) (winners c) (losers c) (buy c)
                      (sell c) p, []).

Definition order_target_percent (security : Security) (target : Q) : M unit :=
  emit (OrderTargetPercent security target).
Definition order_target_value (security : Security) (target : Z) : M unit :=
  emit (OrderTargetValue security target).
Definition record (name : string) (value : Q) : M unit :=
  emit (RecordVar name value).
Definition log_info (msg : Message) : M unit := emit (LogInfo msg).

(** ** record_vars *)

(** The ratio is a true division of the two integers, under the test
    on [context.losers].  [data] is not read. *)
Definition record_vars {D : Type} (data : D) : M unit :=
  context <- get_context ;;
  record "Winners" (inject_Z (winners context)) ;;
  record "Losers" (inject_Z (losers context)) ;;
  if negb (losers context =? 0)
  then ratio <- truediv (inject_Z (winners context))
                        (inject_Z (losers context)) ;;
       record "WinLoseRatio" ratio
  else ret tt.

(** ** check_profit_loss *)

(** The two predicates of the loop body, lines 112-117. *)
Definition profit_of (context : Context) (position : Position)
           (price_diff_percent : Q) : bool :=
  ((0 <? amount position)
     && Qgtb price_diff_percent (inject_Z (MIN_PROFIT_PERCENT context)))
  || ((amount position <? 0)
        && Qgtb (- price_diff_percent) (inject_Z (MIN_PROFIT_PERCENT context))).

Definition loss_of (context : Context) (position : Position)
           (price_diff_percent : Q) : bool :=
  ((0 <? amount position)
     && Qgtb (- price_diff_percent) (inject_Z (MAX_LOSS_PERCENT context)))
  || ((amount position <? 0)
        && Qgtb price_diff_percent (inject_Z (MAX_LOSS_PERCENT context))).

(** The body of the loop over the open positions, lines 105-132. *)
Definition check_position (data : Data) (security : Security) : M unit :=
  context <- get_context ;;
  position <- getitem (positions context) security ;;
  let current_price := current data security in
  price_diff_percent <-
    truediv ((current_price - cost_basis position) * 100)%Q current_price ;;
  let profit := profit_of context position price_diff_percent in
  let loss := loss_of context position price_diff_percent in
  if negb (contains (buy context) security)
     && negb (contains (sell context) security)
     && (profit || loss)
  then
    log_info (Flattening security (amount position) (cost_basis position)
                         (Finite current_price) profit loss) ;;
    (if profit
     then set_winners (winners context
                       + Z.abs (amount position * MIN_PROFIT_PERCENT context))
     else set_losers (losers context
                      + Z.abs (amount position * MAX_LOSS_PERCENT context))) ;;
    order_target_percent security 0 ;;
    record_vars data
  else ret tt.

Definition check_profit_loss (data : Data) : M unit :=
  context <- get_context ;;
  for_each (keys (positions context)) (check_position data).

(** ** handle_data *)

Definition handle_data (data : Data) : M unit :=
  check_profit_loss data.

(** ** check_profit_loss on the platform's floats *)

(** How the platform hands its numbers over: as built-in floats, whose
    division raises on a zero divisor, or as numpy's, whose division
    returns an infinity or NaN. *)
Inductive NumberKind : Type :=
| BuiltinFloat
| NumpyFloat64.

(** [data.current(security, 'price')] with whatever it can return; a
    missing price is NaN. *)
Record FloatData : Type := mkFloatData {
  number_kind : NumberKind;
  float_current : Security -> Float
}.

(** [x / y] on numbers of the given kind. *)
Definition float_truediv (kind : NumberKind) (x y : Float) : M Float :=
  match kind with
  | BuiltinFloat =>
      if is_zero y then raise ZeroDivisionError else ret (fdiv x y)
  | NumpyFloat64 => ret (fdiv x y)
  end.

(** Lines 112-117 on a float. *)
Definition profit_of_float (context : Context) (position : Position)
           (price_diff_percent : Float) : bool :=
  ((0 <? amount position)
     && fgt price_diff_percent
            (Finite (inject_Z (MIN_PROFIT_PERCENT context))))
  || ((amount position <? 0)
        && fgt (fneg price_diff_percent)
               (Finite (inject_Z (MIN_PROFIT_PERCENT context)))).

Definition loss_of_float (context : Context) (position : Position)
           (price_diff_percent : Float) : bool :=
  ((0 <? amount position)
     && fgt (fneg price_diff_percent)
            (Finite (inject_Z (MAX_LOSS_PERCENT context))))
  || ((amount position <? 0)
        && fgt price_diff_percent
               (Finite (inject_Z (MAX_LOSS_PERCENT context)))).

(** The body of the loop, lines 105-132. *)
Definition check_position_float (data : FloatData) (security : Security)
  : M unit :=
  context <- get_context ;;
  position <- getitem (positions context) security ;;
  let current_price := float_current data security in
  price_diff_percent <-
    float_truediv (number_kind data)
      (fmul (fsub current_price (Finite (cost_basis position))) (Finite 100))
      current_price ;;
  let profit := profit_of_float context position price_diff_percent in
  let loss := loss_of_float context position price_diff_percent in
  if negb (contains (buy context) security)
     && negb (contains (sell context) security)
     && (profit || loss)
  then
    log_info (Flattening security (amount position) (cost_basis position)
                         current_price profit loss) ;;
    (if profit
     then set_winners (winners context
                       + Z.abs (amount position * MIN_PROFIT_PERCENT context))
     else set_losers (losers context
                      + Z.abs (amount position * MAX_LOSS_PERCENT context))) ;;
    order_target_percent security 0 ;;
    record_vars data
  else ret tt.

Definition check_profit_loss_float (data : FloatData) : M unit :=
  context <- get_context ;;
  for_each (keys (positions context)) (check_position_float data).

(** Quoted prices as the platform's floats: finite built-in numbers. *)
Definition quoted (data : Data) : FloatData :=
  mkFloatData BuiltinFloat (fun security => Finite (current data security)).

(** The same prices handed over as numpy numbers. *)
Definition quoted_numpy (data : Data) : FloatData :=
  mkFloatData NumpyFloat64 (fun security => Finite (current data security)).

(** ** make_pipeline *)

(** What the platform knows about one asset on one day: membership of
    the Q500US base universe, the Morningstar sector code, the latest
    market capitalisation, the latest close, and the three values of
    the built-in [BollingerBands(window_length=22, k=2)] factor. *)
Record Asset : Type := mkAsset {
  sid : Security;
  Q500US : bool;
  Sector : Z;
  market_cap_latest : Q;
  close_latest : Q;
  BollingerBands : Q * Q * Q
}.

(** A pipeline filter is evaluated against the whole table of the day. *)
Definition Filter : Type := list Asset -> Asset -> bool.

(** Ranking for [top] below: stable insertion into a list ordered by
    descending [key], and the sort built on it. *)
Fixpoint insert_desc (key : Asset -> Q) (a : Asset) (l : list Asset)
  : list Asset :=
  match l with
  | [] => [a]
  | b :: l' =>
      if Qle_bool (key b) (key a) then a :: b :: l'
      else b :: insert_desc key a l'
  end.

Fixpoint sort_desc (key : Asset -> Q) (l : list Asset) : list Asset :=
  match l with
  | [] => []
  | a :: l' => insert_desc key a (sort_desc key l')
  end.

(** Modelled from the spec: the platform's [factor.top(N, mask=...)] is
    not part of the repository.  Following section 4.1, the masked
    assets are ranked by [key] descending, ties kept in table order,
    and the first [N] are taken. *)
Definition top_members (N : nat) (key : Asset -> Q) (mask : Filter)
           (assets : list Asset) : list Asset :=
  firstn N (sort_desc key (filter (mask assets) assets)).

(** Modelled from the spec: [factor.top(N, mask=...)] as a filter, which
    an asset passes when it is one of those first [N]. *)
Definition top (N : nat) (key : Asset -> Q) (mask : Filter) : Filter :=
  fun assets a =>
    existsb (fun m => String.eqb (sid m) (sid a))
            (top_members N key mask assets).

(** Column arithmetic, done by the platform on arrays of floats: a
    quotient by zero is an infinity or NaN and nothing is raised. *)
Definition factor_div (a b : Q) : Float := fdiv (Finite a) (Finite b).

Definition factor_gt (v : Float) (bound : Q) : bool := fgt v (Finite bound).

Record Pipeline : Type := mkPipeline {
  columns : Asset -> IndicatorRow;
  screen : Filter
}.

Definition base_universe_filter : Filter := fun _ a => Q500US a.

Definition tech_universe_filter : Filter :=
  fun assets a => base_universe_filter assets a && (Sector a =? 311).

Definition top_mkt_cap_tech_filter (context : Context) : Filter :=
  top (NUM_SYMBOLS context) market_cap_latest tech_universe_filter.

Definition lower_band_factor (a : Asset) : Q := fst (fst (BollingerBands a)).
Definition middle_factor (a : Asset) : Q := snd (fst (BollingerBands a)).
Definition upper_band_factor (a : Asset) : Q := snd (BollingerBands a).
Definition price (a : Asset) : Q := close_latest a.

Definition buy_percent_factor (a : Asset) : Float :=
  factor_div ((lower_band_factor a - price a) * 100)%Q (price a).
Definition sell_percent_factor (a : Asset) : Float :=
  factor_div ((price a - upper_band_factor a) * 100)%Q (price a).

Definition buy_filter (a : Asset) : bool := factor_gt (buy_percent_factor a) 0.
Definition sell_filter (a : Asset) : bool := factor_gt (sell_percent_factor a) 0.

Definition make_pipeline (context : Context) : Pipeline :=
  mkPipeline
    (fun a => mkRow (buy_percent_factor a) (lower_band_factor a) (buy_filter a)
                    (price a) (sell_filter a) (upper_band_factor a)
                    (sell_percent_factor a))
    (top_mkt_cap_tech_filter context).

(** [algo.pipeline_output]: the rows of the screened assets, in table
    order. *)
Definition pipeline_output (p : Pipeline) (assets : list Asset) : Frame :=
  map (fun a => (sid a, columns p a)) (filter (screen p assets) assets).

(** The day's universe: the securities the screen lets through. *)
Definition universe_snapshot (context : Context) (assets : list Asset)
  : list Asset :=
  filter (screen (make_pipeline context) assets) assets.

(** ** initialize *)

Definition set_parameters : M unit :=
  fun c => (Ok tt, mkContext 10 100000 1 1 0 0 (buy c) (sell c) (positions c), []).

Definition initialize : M unit :=
  set_parameters ;;
  emit (SetCommissionPerShare (25 # 100000)) ;;
  emit (AttachPipeline "pipe_bbands") ;;
  emit (ScheduleGenerateEntries 30).

(** ** before_trading_start *)

Definition before_trading_start (pipe_bbands : Frame) : M unit :=
  set_signals
    (map fst (filter (fun r => row_buy (snd r)) pipe_bbands))
    (map fst (filter (fun r => row_sell (snd r)) pipe_bbands)).

(** ** generate_entries *)

(** [security in context.portfolio.positions]. *)
Definition has_key {V} (d : Dict V) (k : Security) : bool :=
  contains (keys d) k.

Definition enter_long (security : Security) : M unit :=
  context <- get_context ;;
  if negb (has_key (positions context) security)
  then order_target_value security (TRADE_SIZE context) ;;
       log_info (Buying security)
  else ret tt.

Definition enter_short (security : Security) : M unit :=
  context <- get_context ;;
  if negb (has_key (positions context) security)
  then order_target_value security (- TRADE_SIZE context) ;;
       log_info (Selling security)
  else ret tt.

Definition generate_entries (pipe_bbands : Frame) (data : Data) : M unit :=
  context <- get_context ;;
  let buy_signals := filter (fun r => row_buy (snd r)) pipe_bbands in
  let sell_signals := filter (fun r => row_sell (snd r)) pipe_bbands in
  (if existsb (fun r => row_buy (snd r)) pipe_bbands
   then log_info (BuySignals buy_signals) else ret tt) ;;
  (if existsb (fun r => row_sell (snd r)) pipe_bbands
   then log_info (SellSignals sell_signals) else ret tt) ;;
  for_each (buy context) enter_long ;;
  for_each (sell context) enter_short.

(** ** The platform's schedule *)

(** One callback invocation.  Before each, the platform has brought the
    portfolio up to date; the pipeline attached in [initialize] is
    evaluated on the day's table. *)
Inductive Callback : Type :=
| BeforeTradingStart (assets : list Asset) (portfolio : Dict Position)
| GenerateEntries (assets : list Asset) (portfolio : Dict Position) (data : Data)
| HandleData (portfolio : Dict Position) (data : Data).

Definition dispatch (cb : Callback) : M unit :=
  match cb with
  | BeforeTradingStart assets portfolio =>
      set_positions portfolio ;;
      context <- get_context ;;
      before_trading_start (pipeline_output (make_pipeline context) assets)
  | GenerateEntries assets portfolio data =>
      set_positions portfolio ;;
      context <- get_context ;;
      generate_entries (pipeline_output (make_pipeline context) assets) data
  | HandleData portfolio data =>
      set_positions portfolio ;;
      handle_data data
  end.

(** A run of the strategy: the callbacks in the order the platform
    makes them; an exception ends the run. *)
Definition run (cbs : list Callback) : M unit := for_each cbs dispatch.

(** ** Reading orders off the platform calls *)

(** The currency value an order asks the position to reach, for a
    portfolio worth [portfolio_value]. *)
Definition target_value (portfolio_value : Q) (e : Event) : option Q :=
  match e with
  | OrderTargetPercent _ target => Some (target * portfolio_value)%Q
  | OrderTargetValue _ target => Some (inject_Z target)
  | _ => None
  end.

Definition order_security (e : Event) : option Security :=
  match e with
  | OrderTargetPercent security _ => Some security
  | OrderTargetValue security _ => Some security
  | _ => None
  end.

Definition is_order_for (security : Security) (e : Event) : bool :=
  match order_security e with
  | Some s => String.eqb s security
  | None => false
  end.

(** The orders a list of platform calls contains for one security. *)
Definition orders_for (security : Security) (evs : list Event) : list Event :=
  filter (is_order_for security) evs.

(** ** The decision of the risk check, as a function of its inputs *)

(** [price_diff_percent] of line 109, where the price is not zero. *)
Definition price_diff_percent (data : Data) (security : Security)
           (position : Position) : Q :=
  ((current data security - cost_basis position) * 100
   / current data security)%Q.

(** The condition of the [if] on line 119. *)
Definition flatten_test (context : Context) (data : Data)
           (security : Security) (position : Position) : bool :=
  negb (contains (buy context) security)
  && negb (contains (sell context) security)
  && (profit_of context position (price_diff_percent data security position)
      || loss_of context position (price_diff_percent data security position)).

(** The branch taken when the condition holds, lines 120-132. *)
Definition flatten_branch (context : Context) (data : Data)
           (security : Security) (position : Position) : M unit :=
  let pdp := price_diff_percent data security position in
  log_info (Flattening security (amount position) (cost_basis position)
                       (Finite (current data security))
                       (profit_of context position pdp)
                       (loss_of context position pdp)) ;;
  (if profit_of context position pdp
   then set_winners (winners context
                     + Z.abs (amount position * MIN_PROFIT_PERCENT context))
   else set_losers (losers context
                    + Z.abs (amount position * MAX_LOSS_PERCENT context))) ;;
  order_target_percent security 0 ;;
  record_vars data.

(** The risk check flattens [security] in one evaluation of the loop
    body when it places the target-zero order for it. *)
Definition flattened (data : Data) (security : Security) (context : Context)
  : Prop :=
  In (OrderTargetPercent security 0)
     (events_of (check_position data security context)).

(** Two contexts that differ at most in the counters. *)
Definition same_settings (c c' : Context) : Prop :=
  NUM_SYMBOLS c' = NUM_SYMBOLS c /\ TRADE_SIZE c' = TRADE_SIZE c
  /\ MIN_PROFIT_PERCENT c' = MIN_PROFIT_PERCENT c
  /\ MAX_LOSS_PERCENT c' = MAX_LOSS_PERCENT c
  /\ buy c' = buy c /\ sell c' = sell c /\ positions c' = positions c.

(** What [record_vars] hands to the platform in a given context. *)
Definition recorded (c : Context) : list Event :=
  RecordVar "Winners" (inject_Z (winners c))
  :: RecordVar "Losers" (inject_Z (losers c))
  :: (if losers c =? 0 then []
      else [RecordVar "WinLoseRatio"
                    (inject_Z (winners c) / inject_Z (losers c))%Q]).

(** The context after the counter update of lines 123-126. *)
Definition book (c : Context) (p : Position) (profit : bool) : Context :=
  if profit
  then mkContext (NUM_SYMBOLS c) (TRADE_SIZE c) (MIN_PROFIT_PERCENT c)
                 (MAX_LOSS_PERCENT c)
                 (winners c + Z.abs (amount p * MIN_PROFIT_PERCENT c))
                 (losers c) (buy c) (sell c) (positions c)
  else mkContext (NUM_SYMBOLS c) (TRADE_SIZE c) (MIN_PROFIT_PERCENT c)
                 (MAX_LOSS_PERCENT c) (winners c)
                 (losers c + Z.abs (amount p * MAX_LOSS_PERCENT c))
                 (buy c) (sell c) (positions c).

Arguments recorded : simpl never.
Arguments book : simpl never.

(** The four ways one evaluation of the loop body can go. *)
Inductive BodyCase (data : Data) (s : Security) (c : Context) : Prop :=
| BodyKeyError :
    lookup (positions c) s = None ->
    check_position data s c = (Raised KeyError, c, []) ->
    BodyCase data s c
| BodyZeroDivision p :
    lookup (positions c) s = Some p ->
    Qeq_bool (current data s) 0 = true ->
    check_position data s c = (Raised ZeroDivisionError, c, []) ->
    BodyCase data s c
| BodyKeep p :
    lookup (positions c) s = Some p ->
    Qeq_bool (current data s) 0 = false ->
    flatten_test c data s p = false ->
    check_position data s c = (Ok tt, c, []) ->
    BodyCase data s c
| BodyFlatten p :
    lookup (positions c) s = Some p ->
    Qeq_bool (current data s) 0 = false ->
    flatten_test c data s p = true ->
    check_position data s c
    = (Ok tt,
       book c p (profit_of c p (price_diff_percent data s p)),
       LogInfo (Flattening s (amount p) (cost_basis p)
                  (Finite (current data s))
                  (profit_of c p (price_diff_percent data s p))
                  (loss_of c p (price_diff_percent data s p)))
       :: OrderTargetPercent s 0
       :: recorded (book c p (profit_of c p (price_diff_percent data s p)))) ->
    BodyCase data s c.

(** ** The design document's formula for the risk check *)

(** Section 4.4 of the design document, word for word. *)
Definition spec_price_diff_percent (current_price cost_basis : Q) : Q :=
  ((current_price - cost_basis) * 100 / current_price)%Q.

Definition spec_is_long (amount : Z) : Prop := 0 < amount.

Definition spec_profit (MIN_PROFIT_PERCENT : Z) (amount : Z) (pdp : Q)
  : Prop :=
  (spec_is_long amount /\ (inject_Z MIN_PROFIT_PERCENT < pdp)%Q)
  \/ (~ spec_is_long amount /\ (inject_Z MIN_PROFIT_PERCENT < - pdp)%Q).

Definition spec_loss (MAX_LOSS_PERCENT : Z) (amount : Z) (pdp : Q) : Prop :=
  (spec_is_long amount /\ (inject_Z MAX_LOSS_PERCENT < - pdp)%Q)
  \/ (~ spec_is_long amount /\ (inject_Z MAX_LOSS_PERCENT < pdp)%Q).

Definition spec_flatten (context : Context) (data : Data)
           (security : Security) (position : Position) : Prop :=
  let pdp := spec_price_diff_percent (current data security)
                                     (cost_basis position) in
  ~ In security (buy context) /\ ~ In security (sell context)
  /\ (spec_profit (MIN_PROFIT_PERCENT context) (amount position) pdp
      \/ spec_loss (MAX_LOSS_PERCENT context) (amount position) pdp).

(** The same formula with the short branch as the code tests it:
    [amount < 0] where the document has [not is_long]. *)
Definition code_is_short (amount : Z) : Prop := amount < 0.

Definition code_profit (MIN_PROFIT_PERCENT : Z) (amount : Z) (pdp : Q)
  : Prop :=
  (spec_is_long amount /\ (inject_Z MIN_PROFIT_PERCENT < pdp)%Q)
  \/ (code_is_short amount /\ (inject_Z MIN_PROFIT_PERCENT < - pdp)%Q).

Definition code_loss (MAX_LOSS_PERCENT : Z) (amount : Z) (pdp : Q) : Prop :=
  (spec_is_long amount /\ (inject_Z MAX_LOSS_PERCENT < - pdp)%Q)
  \/ (code_is_short amount /\ (inject_Z MAX_LOSS_PERCENT < pdp)%Q).

Definition code_flatten (context : Context) (data : Data)
           (security : Security) (position : Position) : Prop :=
  let pdp := spec_price_diff_percent (current data security)
                                     (cost_basis position) in
  ~ In security (buy context) /\ ~ In security (sell context)
  /\ (code_profit (MIN_PROFIT_PERCENT context) (amount position) pdp
      \/ code_loss (MAX_LOSS_PERCENT context) (amount position) pdp).

(** ** The platform calls of entry generation, as functions of its inputs *)

(** What lines 142-145 log for the frame of the day. *)
Definition signal_log (pipe_bbands : Frame) : list Event :=
  (if existsb (fun r => row_buy (snd r)) pipe_bbands
   then [LogInfo (BuySignals (filter (fun r => row_buy (snd r)) pipe_bbands))]
   else [])
  ++ (if existsb (fun r => row_sell (snd r)) pipe_bbands
      then [LogInfo (SellSignals
                       (filter (fun r => row_sell (snd r)) pipe_bbands))]
      else []).

(** What one iteration of the loop of lines 147-151 calls. *)
Definition long_entry (c : Context) (security : Security) : list Event :=
  if has_key (positions c) security then []
  else [OrderTargetValue security (TRADE_SIZE c); LogInfo (Buying security)].

(** What one iteration of the loop of lines 153-157 calls. *)
Definition short_entry (c : Context) (security : Security) : list Event :=
  if has_key (positions c) security then []
  else [OrderTargetValue security (- TRADE_SIZE c);
        LogInfo (Selling security)].

(** The context with the portfolio the platform reports next. *)
Definition with_positions (c : Context) (portfolio : Dict Position) : Context :=
  context_of (set_positions portfolio c).

(** A context whose counters are at least those of another. *)
Definition counters_le (c c' : Context) : Prop :=
  winners c <= winners c' /\ losers c <= losers c'.

(** ** Exit sizes of one risk check *)

(** Sum of [f] over the keys a loop visits. *)
Definition total (f : Security -> Z) (ks : list Security) : Z :=
  fold_right (fun k acc => f k + acc) 0 ks.

(** [|amount| * MIN_PROFIT_PERCENT] for a position the risk check
    flattens for profit, zero for any other security. *)
Definition profit_exit_size (c : Context) (data : Data) (security : Security)
  : Z :=
  match lookup (positions c) security with
  | Some p =>
      if flatten_test c data security p
         && profit_of c p (price_diff_percent data security p)
      then Z.abs (amount p) * MIN_PROFIT_PERCENT c
      else 0
  | None => 0
  end.

(** [|amount| * MAX_LOSS_PERCENT] for a position the risk check
    flattens without profit, zero for any other security. *)
Definition loss_exit_size (c : Context) (data : Data) (security : Security)
  : Z :=
  match lookup (positions c) security with
  | Some p =>
      if flatten_test c data security p
         && negb (profit_of c p (price_diff_percent data security p))
      then Z.abs (amount p) * MAX_LOSS_PERCENT c
      else 0
  | None => 0
  end.

(** Two contexts with the same four trading parameters. *)
Definition same_parameters (c c' : Context) : Prop :=
  NUM_SYMBOLS c' = NUM_SYMBOLS c /\ TRADE_SIZE c' = TRADE_SIZE c
  /\ MIN_PROFIT_PERCENT c' = MIN_PROFIT_PERCENT c
  /\ MAX_LOSS_PERCENT c' = MAX_LOSS_PERCENT c.

(** ** Inputs for worked examples *)

(** A context as [initialize] leaves it, with the given signal lists
    and portfolio. *)
Definition started (buy sell : list Security) (portfolio : Dict Position)
  : Context :=
  context_of ((initialize ;; set_signals buy sell ;; set_positions portfolio)
                (mkContext 0 0 0 0 0 0 [] [] [])).

(** Market data quoting each listed security at its price and every
    other security at [default]. *)
Definition quotes (table : list (Security * Q)) (default : Q) : Data :=
  mkData (fun security =>
            match lookup table security with
            | Some q => q
            | None => default
            end).

(** A small table of the day: three technology stocks of the base
    universe, one stock of another sector and one outside the base
    universe. *)
Definition example_assets : list Asset :=
  [ mkAsset "AAA" true 311 (900 # 1) (95 # 1) (100 # 1, 105 # 1, 110 # 1);
    mkAsset "BBB" true 311 (700 # 1) (120 # 1) (100 # 1, 105 # 1, 110 # 1);
    mkAsset "CCC" true 311 (800 # 1) (105 # 1) (100 # 1, 105 # 1, 110 # 1);
    mkAsset "DDD" true 102 (990 # 1) (50 # 1) (40 # 1, 50 # 1, 60 # 1);
    mkAsset "EEE" false 311 (995 # 1) (50 # 1) (40 # 1, 50 # 1, 60 # 1) ].

(** A table with one stock whose band is crossed: the upper band lies
    below the lower band and the price between them. *)
Definition crossed_assets : list Asset :=
  [ mkAsset "XXX" true 311 (500 # 1) (105 # 1) (110 # 1, 105 # 1, 100 # 1) ].

(** A context that asks for two symbols. *)
Definition two_symbols : Context := mkContext 2 100000 1 1 0 0 [] [] [].

(** ** Reading further facts off the platform calls *)

(** The securities ordered, in the order of the calls. *)
Definition ordered_securities (evs : list Event) : list Security :=
  flat_map (fun e => match order_security e with
                     | Some s => [s]
                     | None => []
                     end) evs.

(** How many orders a list of platform calls contains. *)
Definition count_orders (evs : list Event) : nat :=
  List.length (ordered_securities evs).

(** The value most recently handed to [record] under [name], if any. *)
Fixpoint last_record (name : string) (evs : list Event) : option Q :=
  match evs with
  | [] => None
  | e :: evs' =>
      match last_record name evs' with
      | Some v => Some v
      | None =>
          match e with
          | RecordVar n v => if String.eqb n name then Some v else None
          | _ => None
          end
      end
  end.

(** The condition of line 119 for the position a security holds. *)
Definition meets_condition (c : Context) (data : Data) (security : Security)
  : bool :=
  match lookup (positions c) security with
  | Some p => flatten_test c data security p
  | None => false
  end.

(** The context after [before_trading_start] has read the output of the
    pipeline built for it. *)
Definition after_signals (c : Context) (assets : list Asset) : Context :=
  context_of (before_trading_start
                (pipeline_output (make_pipeline c) assets) c).

(** A table with one stock quoted below zero, inside its band. *)
Definition negative_assets : list Asset :=
  [ mkAsset "NNN" true 311 (500 # 1) (-5 # 1) (-10 # 1, -5 # 1, -1 # 1) ].

(** The callback that recomputes the signal lists. *)
Definition recomputes_signals (cb : Callback) : bool :=
  match cb with
  | BeforeTradingStart _ _ => true
  | _ => false
  end.

(** ** The decision of the risk check on floats *)

(** [price_diff_percent] of line 109 where the division does not
    raise. *)
Definition float_price_diff_percent (data : FloatData) (security : Security)
           (position : Position) : Float :=
  fdiv (fmul (fsub (float_current data security)
                   (Finite (cost_basis position)))
             (Finite 100))
       (float_current data security).

(** The condition of the [if] on line 119. *)
Definition flatten_test_float (context : Context) (data : FloatData)
           (security : Security) (position : Position) : bool :=
  negb (contains (buy context) security)
  && negb (contains (sell context) security)
  && (profit_of_float context position
        (float_price_diff_percent data security position)
      || loss_of_float context position
           (float_price_diff_percent data security position)).

(** Whether the division of line 109 raises for a security. *)
Definition division_raises (data : FloatData) (security : Security) : bool :=
  match number_kind data with
  | BuiltinFloat => is_zero (float_current data security)
  | NumpyFloat64 => false
  end.

(** Float data of one kind reporting each listed security at its value
    and every other security at [default]. *)
Definition float_quotes (kind : NumberKind) (table : list (Security * Float))
           (default : Float) : FloatData :=
  mkFloatData kind (fun security =>
                      match lookup table security with
                      | Some x => x
                      | None => default
                      end).

(** * Proofs *)

(** ** Numbers and containers *)

Lemma Qgtb_iff (x y : Q) : Qgtb x y = true <-> (y < x)%Q.
Proof.
  unfold Qgtb. rewrite negb_true_iff. split; intro H.
  - apply Qnot_le_lt. intro Hle. apply Qle_bool_iff in Hle. congruence.
  - destruct (Qle_bool x y) eqn:E; [|reflexivity].
    apply Qle_bool_iff in E. exfalso. exact (Qlt_not_le _ _ H E).
Qed.

Lemma Qeq_bool_false_iff (x y : Q) : Qeq_bool x y = false <-> ~ (x == y)%Q.
Proof.
  split.
  - apply Qeq_bool_neq.
  - intro H. destruct (Qeq_bool x y) eqn:E; [|reflexivity].
    apply Qeq_bool_iff in E. contradiction.
Qed.

Lemma contains_In (xs : list Security) (s : Security) :
  contains xs s = true <-> In s xs.
Proof.
  unfold contains. rewrite existsb_exists. split.
  - intros [x [Hin Heq]]. apply String.eqb_eq in Heq. now subst.
  - intro Hin. exists s. split; [assumption | apply String.eqb_refl].
Qed.

Lemma contains_false_iff (xs : list Security) (s : Security) :
  contains xs s = false <-> ~ In s xs.
Proof.
  rewrite <- contains_In. destruct (contains xs s); split; congruence.
Qed.

Lemma lookup_Some_In_keys {V} (d : Dict V) (k : Security) (v : V) :
  lookup d k = Some v -> In k (keys d).
Proof.
  induction d as [|[k' v'] d IH]; simpl; [discriminate|].
  destruct (String.eqb k k') eqn:E.
  - apply String.eqb_eq in E. subst. auto.
  - auto.
Qed.

Lemma In_keys_lookup {V} (d : Dict V) (k : Security) :
  In k (keys d) -> exists v, lookup d k = Some v.
Proof.
  induction d as [|[k' v'] d IH]; simpl; [tauto|].
  intros [Heq | Hin].
  - subst. rewrite String.eqb_refl. eauto.
  - destruct (String.eqb k k'); eauto.
Qed.

(** ** Running the loop body *)

Lemma check_position_unfold data s c p :
  lookup (positions c) s = Some p ->
  Qeq_bool (current data s) 0 = false ->
  check_position data s c
  = if flatten_test c data s p then flatten_branch c data s p c
    else (Ok tt, c, []).
Proof.
  intros Hl Hp.
  unfold check_position, bind, get_context, getitem, truediv.
  rewrite Hl. unfold ret at 1. rewrite Hp. unfold ret at 1.
  unfold flatten_test, flatten_branch, price_diff_percent.
  destruct (negb (contains (buy c) s) && negb (contains (sell c) s)
            && _) eqn:E.
  - unfold bind. simpl.
    destruct (profit_of c p _); simpl;
      destruct (record_vars data _) as [[r c2] e2]; reflexivity.
  - reflexivity.
Qed.

Lemma check_position_zero_price data s c p :
  lookup (positions c) s = Some p ->
  Qeq_bool (current data s) 0 = true ->
  check_position data s c = (Raised ZeroDivisionError, c, []).
Proof.
  intros Hl Hp.
  unfold check_position, bind, get_context, getitem, truediv.
  rewrite Hl. unfold ret at 1. rewrite Hp. reflexivity.
Qed.

Lemma check_position_no_key data s c :
  lookup (positions c) s = None ->
  check_position data s c = (Raised KeyError, c, []).
Proof.
  intros Hl. unfold check_position, bind, get_context, getitem.
  rewrite Hl. reflexivity.
Qed.

Lemma inject_Z_nonzero (z : Z) : z <> 0 -> Qeq_bool (inject_Z z) 0 = false.
Proof.
  intro Hz. destruct (Qeq_bool (inject_Z z) 0) eqn:E; [|reflexivity].
  apply Qeq_bool_iff in E. unfold Qeq in E. simpl in E. lia.
Qed.

Lemma record_vars_run {D : Type} (data : D) c :
  record_vars data c = (Ok tt, c, recorded c).
Proof.
  unfold record_vars, recorded, bind, get_context, record, emit. simpl.
  destruct (losers c =? 0) eqn:E; [reflexivity|].
  apply Z.eqb_neq in E. cbn [negb]. unfold truediv.
  rewrite (inject_Z_nonzero _ E). reflexivity.
Qed.

Lemma flatten_branch_run c data s p :
  flatten_branch c data s p c
  = (Ok tt,
     book c p (profit_of c p (price_diff_percent data s p)),
     LogInfo (Flattening s (amount p) (cost_basis p)
                  (Finite (current data s))
                (profit_of c p (price_diff_percent data s p))
                (loss_of c p (price_diff_percent data s p)))
     :: OrderTargetPercent s 0
     :: recorded (book c p (profit_of c p (price_diff_percent data s p)))).
Proof.
  unfold flatten_branch, bind, log_info, order_target_percent, emit, book.
  destruct (profit_of c p (price_diff_percent data s p));
    unfold set_winners, set_losers; rewrite record_vars_run; reflexivity.
Qed.

Lemma check_position_flatten data s c p :
  lookup (positions c) s = Some p ->
  Qeq_bool (current data s) 0 = false ->
  flatten_test c data s p = true ->
  check_position data s c
  = (Ok tt,
     book c p (profit_of c p (price_diff_percent data s p)),
     LogInfo (Flattening s (amount p) (cost_basis p)
                  (Finite (current data s))
                (profit_of c p (price_diff_percent data s p))
                (loss_of c p (price_diff_percent data s p)))
     :: OrderTargetPercent s 0
     :: recorded (book c p (profit_of c p (price_diff_percent data s p)))).
Proof.
  intros Hl Hp Ht. rewrite (check_position_unfold _ _ _ _ Hl Hp), Ht.
  apply flatten_branch_run.
Qed.

Lemma check_position_keep data s c p :
  lookup (positions c) s = Some p ->
  Qeq_bool (current data s) 0 = false ->
  flatten_test c data s p = false ->
  check_position data s c = (Ok tt, c, []).
Proof.
  intros Hl Hp Ht. now rewrite (check_position_unfold _ _ _ _ Hl Hp), Ht.
Qed.

Lemma check_position_cases data s c : BodyCase data s c.
Proof.
  destruct (lookup (positions c) s) as [p|] eqn:Hl.
  - destruct (Qeq_bool (current data s) 0) eqn:Hp.
    + eapply BodyZeroDivision; eauto using check_position_zero_price.
    + destruct (flatten_test c data s p) eqn:Ht.
      * eapply BodyFlatten; eauto using check_position_flatten.
      * eapply BodyKeep; eauto using check_position_keep.
  - apply BodyKeyError; auto using check_position_no_key.
Qed.

(** ** Settings are stable under the risk check *)

Lemma same_settings_refl c : same_settings c c.
Proof. unfold same_settings. tauto. Qed.

Lemma same_settings_trans c1 c2 c3 :
  same_settings c1 c2 -> same_settings c2 c3 -> same_settings c1 c3.
Proof.
  unfold same_settings.
  intros (A1 & A2 & A3 & A4 & A5 & A6 & A7) (B1 & B2 & B3 & B4 & B5 & B6 & B7).
  repeat split; congruence.
Qed.

Lemma same_settings_book c p b : same_settings c (book c p b).
Proof. unfold same_settings, book. destruct b; simpl; tauto. Qed.

Lemma winners_book_le c p b : winners c <= winners (book c p b).
Proof. unfold book. destruct b; simpl; lia. Qed.

Lemma losers_book_le c p b : losers c <= losers (book c p b).
Proof. unfold book. destruct b; simpl; lia. Qed.

Lemma profit_of_same_settings c c' p q :
  same_settings c c' -> profit_of c' p q = profit_of c p q.
Proof.
  unfold profit_of. intros (_ & _ & Hmin & _). now rewrite Hmin.
Qed.

Lemma loss_of_same_settings c c' p q :
  same_settings c c' -> loss_of c' p q = loss_of c p q.
Proof.
  unfold loss_of. intros (_ & _ & _ & Hmax & _). now rewrite Hmax.
Qed.

Lemma flatten_test_same_settings c c' data s p :
  same_settings c c' -> flatten_test c' data s p = flatten_test c data s p.
Proof.
  intro H. unfold flatten_test.
  rewrite (profit_of_same_settings _ _ _ _ H), (loss_of_same_settings _ _ _ _ H).
  destruct H as (_ & _ & _ & _ & Hb & Hs & _). now rewrite Hb, Hs.
Qed.

(** ** Loops *)

Lemma for_each_cons {A} (x : A) xs body c :
  for_each (x :: xs) body c
  = match body x c with
    | (Ok _, c1, e1) =>
        (outcome_of (for_each xs body c1), context_of (for_each xs body c1),
         e1 ++ events_of (for_each xs body c1))
    | (Raised e, c1, e1) => (Raised e, c1, e1)
    end.
Proof.
  simpl. unfold bind. destruct (body x c) as [[[u|e] c1] e1]; [|reflexivity].
  destruct (for_each xs body c1) as [[r c2] e2]. reflexivity.
Qed.

Lemma for_each_app {A} (xs ys : list A) body c :
  for_each (xs ++ ys) body c
  = match for_each xs body c with
    | (Ok _, c1, e1) =>
        (outcome_of (for_each ys body c1), context_of (for_each ys body c1),
         e1 ++ events_of (for_each ys body c1))
    | (Raised e, c1, e1) => (Raised e, c1, e1)
    end.
Proof.
  revert c. induction xs as [|x xs IH]; intro c.
  - simpl. unfold ret. destruct (for_each ys body c) as [[r c2] e2]. reflexivity.
  - rewrite <- app_comm_cons, !for_each_cons.
    destruct (body x c) as [[[u|e] c1] e1]; [|reflexivity].
    rewrite IH. destruct (for_each xs body c1) as [[[u'|e'] c2] e2]; simpl.
    + unfold outcome_of, context_of, events_of. simpl.
      now rewrite app_assoc.
    + reflexivity.
Qed.

Lemma check_profit_loss_unfold data c :
  check_profit_loss data c
  = for_each (keys (positions c)) (check_position data) c.
Proof.
  unfold check_profit_loss, bind, get_context.
  destruct (for_each _ _ c) as [[r c2] e2]. reflexivity.
Qed.

(** A relation between contexts that every iteration respects is
    respected by the loop, however it ends. *)
Lemma for_each_preserves {A} (R : Context -> Context -> Prop)
      (body : A -> M unit) :
  (forall c, R c c) ->
  (forall c1 c2 c3, R c1 c2 -> R c2 c3 -> R c1 c3) ->
  (forall x c, R c (context_of (body x c))) ->
  forall xs c, R c (context_of (for_each xs body c)).
Proof.
  intros Hrefl Htrans Hbody xs. induction xs as [|x xs IH]; intro c.
  - apply Hrefl.
  - rewrite for_each_cons. pose proof (Hbody x c) as Hx.
    destruct (body x c) as [[[u|e] c1] e1]; cbn [context_of fst snd] in *.
    + eapply Htrans; [exact Hx | apply IH].
    + exact Hx.
Qed.

(** ** The loop of the risk check *)

Lemma recorded_no_order c e : In e (recorded c) -> order_security e = None.
Proof.
  unfold recorded. simpl. intros [<- | [<- | H]]; try reflexivity.
  destruct (losers c =? 0); simpl in H; [tauto|].
  destruct H as [<- | []]. reflexivity.
Qed.

Section RiskLoop.

Variable data : Data.

Let body := check_position data.

(** The loop leaves the settings alone and never lowers a counter,
    however it ends. *)
Lemma risk_loop_invariant ks : forall c,
  same_settings c (context_of (for_each ks body c))
  /\ winners c <= winners (context_of (for_each ks body c))
  /\ losers c <= losers (context_of (for_each ks body c)).
Proof.
  induction ks as [|k ks IH]; intro c.
  - simpl. split; [apply same_settings_refl | split; reflexivity].
  - rewrite for_each_cons. subst body.
    destruct (check_position_cases data k c) as [Hl E | p Hl Hp E | p Hl Hp Ht E | p Hl Hp Ht E];
      rewrite E; cbn [context_of fst snd].
    + split; [apply same_settings_refl | split; reflexivity].
    + split; [apply same_settings_refl | split; reflexivity].
    + apply IH.
    + destruct (IH (book c p (profit_of c p (price_diff_percent data k p))))
        as (Hs & Hw & Hlo).
      split; [|split].
      * eapply same_settings_trans; [apply same_settings_book | exact Hs].
      * etransitivity; [apply winners_book_le | exact Hw].
      * etransitivity; [apply losers_book_le | exact Hlo].
Qed.

(** Every order the loop places is a target-zero order for a key it
    visited whose position met the condition of line 119. *)
Lemma risk_loop_orders_sound ks : forall c e s,
  In e (events_of (for_each ks body c)) ->
  order_security e = Some s ->
  e = OrderTargetPercent s 0 /\ In s ks
  /\ exists p, lookup (positions c) s = Some p
               /\ Qeq_bool (current data s) 0 = false
               /\ flatten_test c data s p = true.
Proof.
  induction ks as [|k ks IH]; intros c e s Hin Hord.
  - simpl in Hin. tauto.
  - rewrite for_each_cons in Hin. subst body.
    destruct (check_position_cases data k c) as [Hl E | p Hl Hp E | p Hl Hp Ht E | p Hl Hp Ht E];
      rewrite E in Hin; cbn [events_of fst snd] in Hin.
    + simpl in Hin. tauto.
    + simpl in Hin. tauto.
    + simpl in Hin. destruct (IH c e s Hin Hord) as (He & Hk & Hx).
      split; [assumption | split; [right; assumption | assumption]].
    + cbn [app In] in Hin. destruct Hin as [<- | [<- | Hin]].
      * discriminate.
      * simpl in Hord. injection Hord as <-.
        split; [reflexivity | split; [left; reflexivity |]].
        exists p. auto.
      * apply in_app_or in Hin. destruct Hin as [Hin | Hin].
        -- apply recorded_no_order in Hin. congruence.
        -- destruct (IH _ e s Hin Hord) as (He & Hk & q & Hq & Hqp & Hqt).
           pose proof (same_settings_book c p
                         (profit_of c p (price_diff_percent data k p))) as Hs.
           split; [assumption | split; [right; assumption |]].
           exists q. rewrite (flatten_test_same_settings _ _ _ _ _ Hs) in Hqt.
           destruct Hs as (_ & _ & _ & _ & _ & _ & Hpos).
           rewrite Hpos in Hq. auto.
Qed.

(** A loop that completes has placed the order for every key it
    visited whose position met the condition. *)
Lemma risk_loop_orders_complete ks : forall c s p,
  outcome_of (for_each ks body c) = Ok tt ->
  In s ks ->
  lookup (positions c) s = Some p ->
  flatten_test c data s p = true ->
  In (OrderTargetPercent s 0) (events_of (for_each ks body c)).
Proof.
  induction ks as [|k ks IH]; intros c s p Hok Hin Hl Ht.
  - destruct Hin.
  - rewrite for_each_cons in Hok |- *. subst body.
    destruct (check_position_cases data k c) as [Hl' E | p' Hl' Hp' E | p' Hl' Hp' Ht' E | p' Hl' Hp' Ht' E];
      rewrite E in Hok |- *; cbn [outcome_of events_of fst snd] in Hok |- *;
      try discriminate.
    + destruct Hin as [-> | Hin].
      * congruence.
      * simpl. eapply IH; eauto.
    + destruct Hin as [-> | Hin].
      * cbn [app In]. auto.
      * cbn [app In]. right. right. apply in_or_app. right.
        pose proof (same_settings_book c p'
                      (profit_of c p' (price_diff_percent data k p'))) as Hs.
        apply (IH _ s p); auto.
        -- destruct Hs as (_ & _ & _ & _ & _ & _ & Hpos). now rewrite Hpos.
        -- now rewrite (flatten_test_same_settings _ _ _ _ _ Hs).
Qed.

(** The loop completes exactly when every key it visits has a
    position and a price that is not zero. *)
Lemma risk_loop_outcome ks : forall c,
  outcome_of (for_each ks body c) = Ok tt
  <-> (forall s, In s ks ->
         In s (keys (positions c)) /\ Qeq_bool (current data s) 0 = false).
Proof.
  induction ks as [|k ks IH]; intro c.
  - simpl. split; [intros _ s [] | reflexivity].
  - rewrite for_each_cons. subst body.
    destruct (check_position_cases data k c) as [Hl E | p Hl Hp E | p Hl Hp Ht E | p Hl Hp Ht E];
      rewrite E; cbn [outcome_of fst snd].
    + split; [discriminate|]. intro H.
      destruct (H k (or_introl eq_refl)) as [Hk _].
      apply In_keys_lookup in Hk. destruct Hk as [v Hv]. congruence.
    + split; [discriminate|]. intro H.
      destruct (H k (or_introl eq_refl)) as [_ Hk]. congruence.
    + fold (outcome_of (for_each ks (check_position data) c)). rewrite IH.
      split.
      * intros H s [<- | Hin]; [|auto].
        split; [eapply lookup_Some_In_keys; eauto | assumption].
      * intros H s Hin. apply H. now right.
    + fold (outcome_of (for_each ks (check_position data)
              (book c p (profit_of c p (price_diff_percent data k p))))).
      rewrite IH.
      destruct (same_settings_book c p
                  (profit_of c p (price_diff_percent data k p)))
        as (_ & _ & _ & _ & _ & _ & Hpos).
      rewrite Hpos. split.
      * intros H s [<- | Hin]; [|auto].
        split; [eapply lookup_Some_In_keys; eauto | assumption].
      * intros H s Hin. apply H. now right.
Qed.

End RiskLoop.

(** ** The condition of line 119 and the two formulas *)

Lemma profit_of_iff c p q :
  profit_of c p q = true <-> code_profit (MIN_PROFIT_PERCENT c) (amount p) q.
Proof.
  unfold profit_of, code_profit, spec_is_long, code_is_short.
  rewrite orb_true_iff, !andb_true_iff, !Qgtb_iff, !Z.ltb_lt. reflexivity.
Qed.

Lemma loss_of_iff c p q :
  loss_of c p q = true <-> code_loss (MAX_LOSS_PERCENT c) (amount p) q.
Proof.
  unfold loss_of, code_loss, spec_is_long, code_is_short.
  rewrite orb_true_iff, !andb_true_iff, !Qgtb_iff, !Z.ltb_lt. reflexivity.
Qed.

Lemma flatten_test_iff c data s p :
  flatten_test c data s p = true <-> code_flatten c data s p.
Proof.
  unfold flatten_test, code_flatten.
  rewrite !andb_true_iff, orb_true_iff, !negb_true_iff, !contains_false_iff.
  rewrite profit_of_iff, loss_of_iff.
  unfold price_diff_percent, spec_price_diff_percent. tauto.
Qed.

(** Away from a zero amount the two formulas say the same. *)
Lemma Code_profit_Spec m a q : a <> 0 -> code_profit m a q <-> spec_profit m a q.
Proof.
  unfold code_profit, spec_profit, code_is_short, spec_is_long. intro Ha.
  split; (intros [[H1 H2] | [H1 H2]]; [left | right]; split; auto; lia).
Qed.

Lemma Code_loss_Spec m a q : a <> 0 -> code_loss m a q <-> spec_loss m a q.
Proof.
  unfold code_loss, spec_loss, code_is_short, spec_is_long. intro Ha.
  split; (intros [[H1 H2] | [H1 H2]]; [left | right]; split; auto; lia).
Qed.

Lemma Code_flatten_Spec c data s p :
  amount p <> 0 -> code_flatten c data s p <-> spec_flatten c data s p.
Proof.
  intro Ha. unfold code_flatten, spec_flatten. cbv zeta.
  rewrite (Code_profit_Spec _ _ _ Ha), (Code_loss_Spec _ _ _ Ha). reflexivity.
Qed.

(** A position of zero shares meets neither predicate. *)
Lemma profit_of_zero_amount c p q : amount p = 0 -> profit_of c p q = false.
Proof. unfold profit_of. intros ->. reflexivity. Qed.

Lemma loss_of_zero_amount c p q : amount p = 0 -> loss_of c p q = false.
Proof. unfold loss_of. intros ->. reflexivity. Qed.

Lemma flatten_test_zero_amount c data s p :
  amount p = 0 -> flatten_test c data s p = false.
Proof.
  intro Ha. unfold flatten_test.
  rewrite (profit_of_zero_amount _ _ _ Ha), (loss_of_zero_amount _ _ _ Ha).
  apply andb_false_r.
Qed.

Lemma flatten_test_signalled c data s p :
  In s (buy c) \/ In s (sell c) -> flatten_test c data s p = false.
Proof.
  unfold flatten_test. intros [H | H]; apply contains_In in H; rewrite H.
  - reflexivity.
  - now rewrite andb_false_r.
Qed.

(** With thresholds that are not negative, profit and loss exclude
    each other. *)
Lemma profit_loss_exclusive c p q :
  0 <= MIN_PROFIT_PERCENT c -> 0 <= MAX_LOSS_PERCENT c ->
  profit_of c p q = true -> loss_of c p q = true -> False.
Proof.
  intros Hmin Hmax Hp Hl.
  apply profit_of_iff in Hp. apply loss_of_iff in Hl.
  assert (H0min : (0 <= inject_Z (MIN_PROFIT_PERCENT c))%Q)
    by (change 0%Q with (inject_Z 0); now rewrite <- Zle_Qle).
  assert (H0max : (0 <= inject_Z (MAX_LOSS_PERCENT c))%Q)
    by (change 0%Q with (inject_Z 0); now rewrite <- Zle_Qle).
  unfold code_profit, code_loss, spec_is_long, code_is_short in *.
  assert (Hcontra : forall x y : Q, (0 <= x)%Q -> (0 <= y)%Q ->
                      (x < q)%Q -> (y < - q)%Q -> False).
  { intros x y Hx Hy H1 H2.
    assert (Hq : (0 < q)%Q) by exact (Qle_lt_trans _ _ _ Hx H1).
    assert (Hnq : (0 < - q)%Q) by exact (Qle_lt_trans _ _ _ Hy H2).
    apply (Qlt_irrefl 0).
    setoid_replace 0%Q with (q + - q)%Q at 2 by ring.
    setoid_replace 0%Q with (0 + 0)%Q at 1 by ring.
    apply Qplus_lt_le_compat; [assumption | apply Qlt_le_weak; assumption]. }
  destruct Hp as [[Ha Hp] | [Ha Hp]], Hl as [[Hb Hl] | [Hb Hl]]; try lia; eauto.
Qed.

(** ** Orders for one security *)

Lemma orders_for_nil_iff s evs :
  orders_for s evs = [] <-> (forall e, In e evs -> order_security e <> Some s).
Proof.
  unfold orders_for. induction evs as [|e evs IH]; simpl.
  - split; [intros _ e [] | reflexivity].
  - unfold is_order_for at 1. split.
    + intros H e' [<- | Hin].
      * destruct (order_security e) as [s'|]; [|discriminate].
        destruct (String.eqb s' s) eqn:E; [discriminate|].
        apply String.eqb_neq in E. congruence.
      * destruct (match order_security e with
                  | Some s0 => String.eqb s0 s | None => false end);
          [discriminate|]. now apply IH.
    + intro H.
      assert (He : order_security e <> Some s) by (apply H; now left).
      destruct (order_security e) as [s'|].
      * destruct (String.eqb s' s) eqn:E.
        -- apply String.eqb_eq in E. congruence.
        -- apply IH. intros e' Hin. apply H. now right.
      * apply IH. intros e' Hin. apply H. now right.
Qed.

Lemma orders_for_app s e1 e2 :
  orders_for s (e1 ++ e2) = orders_for s e1 ++ orders_for s e2.
Proof. apply filter_app. Qed.

(** ** Skipping a key *)

Section RiskLoopShape.

Variable data : Data.

(** A key whose evaluation changes nothing can be left out of the
    loop without changing what the loop does. *)
Lemma risk_loop_skip s ks : forall c,
  (forall c', same_settings c c' ->
              check_position data s c' = (Ok tt, c', [])) ->
  for_each ks (check_position data) c
  = for_each (remove string_dec s ks) (check_position data) c.
Proof.
  induction ks as [|k ks IH]; intros c Hs; [reflexivity|].
  cbn [remove]. destruct (string_dec s k) as [<- | Hne].
  - rewrite for_each_cons, (Hs c (same_settings_refl c)).
    rewrite <- (IH c Hs).
    destruct (for_each ks (check_position data) c) as [[r c2] e2].
    reflexivity.
  - rewrite !for_each_cons.
    destruct (check_position_cases data k c)
      as [Hl E | p Hl Hp E | p Hl Hp Ht E | p Hl Hp Ht E];
      rewrite E; try reflexivity.
    + now rewrite (IH c Hs).
    + rewrite (IH (book c p (profit_of c p (price_diff_percent data k p)))).
      * reflexivity.
      * intros c' Hc'. apply Hs.
        eapply same_settings_trans; [apply same_settings_book | exact Hc'].
Qed.

End RiskLoopShape.

(** ** What a completed risk check has ordered *)

Lemma check_profit_loss_completes data c :
  (forall k, In k (keys (positions c)) -> ~ (current data k == 0)%Q) ->
  outcome_of (check_profit_loss data c) = Ok tt.
Proof.
  intro Hprices. rewrite check_profit_loss_unfold.
  apply risk_loop_outcome. intros k Hk. split; [assumption|].
  apply Qeq_bool_false_iff. auto.
Qed.

Lemma check_profit_loss_orders_iff data c s p :
  (forall k, In k (keys (positions c)) -> ~ (current data k == 0)%Q) ->
  lookup (positions c) s = Some p ->
  In (OrderTargetPercent s 0) (events_of (check_profit_loss data c))
  <-> code_flatten c data s p.
Proof.
  intros Hprices Hl.
  pose proof (check_profit_loss_completes data c Hprices) as Hok.
  rewrite check_profit_loss_unfold in Hok |- *.
  rewrite <- flatten_test_iff. split.
  - intro Hin.
    destruct (risk_loop_orders_sound data _ c _ s Hin eq_refl)
      as (_ & _ & p' & Hl' & _ & Ht).
    congruence.
  - intro Ht.
    apply (risk_loop_orders_complete data _ c s p); auto.
    eapply lookup_Some_In_keys; eauto.
Qed.

Lemma orders_for_recorded s c : orders_for s (recorded c) = [].
Proof.
  apply orders_for_nil_iff. intros e Hin.
  rewrite (recorded_no_order c e Hin). discriminate.
Qed.

(** ** What a completed risk check has booked *)

Lemma total_ext f g ks : (forall k, f k = g k) -> total f ks = total g ks.
Proof.
  intro H. induction ks as [|k ks IH]; simpl; [reflexivity|].
  now rewrite H, IH.
Qed.

Lemma profit_exit_size_same_settings c c' data s :
  same_settings c c' -> profit_exit_size c' data s = profit_exit_size c data s.
Proof.
  intro H. unfold profit_exit_size.
  pose proof H as (_ & _ & Hmin & _ & _ & _ & Hpos). rewrite Hpos, Hmin.
  destruct (lookup (positions c) s) as [p|]; [|reflexivity].
  now rewrite (flatten_test_same_settings _ _ _ _ _ H),
    (profit_of_same_settings _ _ _ _ H).
Qed.

Lemma loss_exit_size_same_settings c c' data s :
  same_settings c c' -> loss_exit_size c' data s = loss_exit_size c data s.
Proof.
  intro H. unfold loss_exit_size.
  pose proof H as (_ & _ & _ & Hmax & _ & _ & Hpos). rewrite Hpos, Hmax.
  destruct (lookup (positions c) s) as [p|]; [|reflexivity].
  now rewrite (flatten_test_same_settings _ _ _ _ _ H),
    (profit_of_same_settings _ _ _ _ H).
Qed.

Lemma book_profit_counters c p :
  0 <= MIN_PROFIT_PERCENT c ->
  winners (book c p true) = winners c + Z.abs (amount p) * MIN_PROFIT_PERCENT c
  /\ losers (book c p true) = losers c.
Proof.
  intro H. unfold book. simpl. rewrite Z.abs_mul, (Z.abs_eq _ H). auto.
Qed.

Lemma book_loss_counters c p :
  0 <= MAX_LOSS_PERCENT c ->
  losers (book c p false) = losers c + Z.abs (amount p) * MAX_LOSS_PERCENT c
  /\ winners (book c p false) = winners c.
Proof.
  intro H. unfold book. simpl. rewrite Z.abs_mul, (Z.abs_eq _ H). auto.
Qed.

(** A loop that completes has added to each counter the exit sizes of
    the keys it visited. *)
Lemma risk_loop_counters data ks : forall c,
  0 <= MIN_PROFIT_PERCENT c -> 0 <= MAX_LOSS_PERCENT c ->
  outcome_of (for_each ks (check_position data) c) = Ok tt ->
  winners (context_of (for_each ks (check_position data) c))
  = winners c + total (profit_exit_size c data) ks
  /\ losers (context_of (for_each ks (check_position data) c))
     = losers c + total (loss_exit_size c data) ks.
Proof.
  induction ks as [|k ks IH]; intros c Hmin Hmax Hok.
  - cbn. lia.
  - rewrite for_each_cons in Hok |- *.
    destruct (check_position_cases data k c)
      as [Hl E | p Hl Hp E | p Hl Hp Ht E | p Hl Hp Ht E];
      rewrite E in Hok |- *; cbn [outcome_of context_of fst snd] in Hok |- *;
      try discriminate.
    + destruct (IH c Hmin Hmax Hok) as [Hw Hlo].
      cbn [total fold_right]. fold (total (profit_exit_size c data) ks).
      fold (total (loss_exit_size c data) ks).
      unfold profit_exit_size at 1, loss_exit_size at 1.
      rewrite Hl, Ht. cbn [andb]. lia.
    + set (b := profit_of c p (price_diff_percent data k p)) in *.
      pose proof (same_settings_book c p b) as Hs.
      pose proof Hs as (_ & _ & Hmin' & Hmax' & _).
      destruct (IH (book c p b)) as [Hw Hlo];
        [now rewrite Hmin' | now rewrite Hmax' | exact Hok |].
      rewrite Hw, Hlo.
      rewrite (total_ext _ _ ks
                 (fun x => profit_exit_size_same_settings c _ data x Hs)).
      rewrite (total_ext _ _ ks
                 (fun x => loss_exit_size_same_settings c _ data x Hs)).
      cbn [total fold_right]. fold (total (profit_exit_size c data) ks).
      fold (total (loss_exit_size c data) ks).
      unfold profit_exit_size at 2, loss_exit_size at 2.
      rewrite Hl, Ht. fold b. cbn [andb].
      destruct b; cbn [negb].
      * destruct (book_profit_counters c p Hmin) as [-> ->]. lia.
      * destruct (book_loss_counters c p Hmax) as [-> ->]. lia.
Qed.

(** ** What flattening does *)

Lemma flattened_inv data c s p :
  lookup (positions c) s = Some p ->
  flattened data s c ->
  Qeq_bool (current data s) 0 = false
  /\ flatten_test c data s p = true
  /\ check_position data s c
     = (Ok tt,
        book c p (profit_of c p (price_diff_percent data s p)),
        LogInfo (Flattening s (amount p) (cost_basis p)
                  (Finite (current data s))
                   (profit_of c p (price_diff_percent data s p))
                   (loss_of c p (price_diff_percent data s p)))
        :: OrderTargetPercent s 0
        :: recorded (book c p (profit_of c p (price_diff_percent data s p)))).
Proof.
  intros Hl Hf. unfold flattened in Hf.
  destruct (check_position_cases data s c)
    as [Hl' E | p' Hl' Hp E | p' Hl' Hp Ht E | p' Hl' Hp Ht E];
    try (rewrite E in Hf; simpl in Hf; tauto).
  assert (p' = p) by congruence. subst p'. auto.
Qed.

(** ** Entry generation *)

Lemma enter_long_run s c : enter_long s c = (Ok tt, c, long_entry c s).
Proof.
  unfold enter_long, long_entry, bind, get_context.
  destruct (has_key (positions c) s); reflexivity.
Qed.

Lemma enter_short_run s c : enter_short s c = (Ok tt, c, short_entry c s).
Proof.
  unfold enter_short, short_entry, bind, get_context.
  destruct (has_key (positions c) s); reflexivity.
Qed.

(** A loop whose body only calls the platform. *)
Lemma for_each_emit {A} (body : A -> M unit) (evs : Context -> A -> list Event)
      (xs : list A) c :
  (forall x, body x c = (Ok tt, c, evs c x)) ->
  for_each xs body c = (Ok tt, c, flat_map (evs c) xs).
Proof.
  intro Hbody. induction xs as [|x xs IH]; [reflexivity|].
  rewrite for_each_cons, Hbody, IH. reflexivity.
Qed.

Lemma generate_entries_run pipe_bbands data c :
  generate_entries pipe_bbands data c
  = (Ok tt, c,
     signal_log pipe_bbands
     ++ flat_map (long_entry c) (buy c) ++ flat_map (short_entry c) (sell c)).
Proof.
  unfold generate_entries, bind, get_context, signal_log.
  destruct (existsb (fun r => row_buy (snd r)) pipe_bbands),
           (existsb (fun r => row_sell (snd r)) pipe_bbands);
    unfold log_info, emit, ret;
    rewrite (for_each_emit enter_long long_entry (buy c) c
               (fun x => enter_long_run x c));
    rewrite (for_each_emit enter_short short_entry (sell c) c
               (fun x => enter_short_run x c));
    reflexivity.
Qed.

Lemma orders_for_signal_log s pipe_bbands :
  orders_for s (signal_log pipe_bbands) = [].
Proof.
  unfold signal_log.
  destruct (existsb (fun r => row_buy (snd r)) pipe_bbands),
           (existsb (fun r => row_sell (snd r)) pipe_bbands);
    reflexivity.
Qed.

(** The orders one entry loop places for a security: none when it
    holds a position, else one per occurrence in the signal list. *)
Lemma orders_for_long_entries c s xs :
  orders_for s (flat_map (long_entry c) xs)
  = if has_key (positions c) s then []
    else repeat (OrderTargetValue s (TRADE_SIZE c)) (count_occ string_dec xs s).
Proof.
  induction xs as [|x xs IH].
  - simpl. now destruct (has_key (positions c) s).
  - cbn [flat_map count_occ]. rewrite orders_for_app, IH.
    unfold long_entry at 1.
    destruct (string_dec x s) as [-> | Hne].
    + destruct (has_key (positions c) s); [reflexivity|].
      unfold orders_for. cbn [filter]. unfold is_order_for.
      cbn [order_security]. now rewrite String.eqb_refl.
    + destruct (has_key (positions c) x).
      * reflexivity.
      * unfold orders_for at 1. cbn [filter]. unfold is_order_for.
        cbn [order_security].
        apply String.eqb_neq in Hne. rewrite Hne. reflexivity.
Qed.

Lemma orders_for_short_entries c s xs :
  orders_for s (flat_map (short_entry c) xs)
  = if has_key (positions c) s then []
    else repeat (OrderTargetValue s (- TRADE_SIZE c))
                (count_occ string_dec xs s).
Proof.
  induction xs as [|x xs IH].
  - simpl. now destruct (has_key (positions c) s).
  - cbn [flat_map count_occ]. rewrite orders_for_app, IH.
    unfold short_entry at 1.
    destruct (string_dec x s) as [-> | Hne].
    + destruct (has_key (positions c) s); [reflexivity|].
      unfold orders_for. cbn [filter]. unfold is_order_for.
      cbn [order_security]. now rewrite String.eqb_refl.
    + destruct (has_key (positions c) x).
      * reflexivity.
      * unfold orders_for at 1. cbn [filter]. unfold is_order_for.
        cbn [order_security].
        apply String.eqb_neq in Hne. rewrite Hne. reflexivity.
Qed.

Lemma generate_entries_orders_for pipe_bbands data c s :
  orders_for s (events_of (generate_entries pipe_bbands data c))
  = if has_key (positions c) s then []
    else repeat (OrderTargetValue s (TRADE_SIZE c))
                (count_occ string_dec (buy c) s)
         ++ repeat (OrderTargetValue s (- TRADE_SIZE c))
                   (count_occ string_dec (sell c) s).
Proof.
  rewrite generate_entries_run. cbn [events_of snd].
  rewrite !orders_for_app, orders_for_signal_log,
    orders_for_long_entries, orders_for_short_entries.
  now destruct (has_key (positions c) s).
Qed.

Lemma has_key_In {V} (d : Dict V) s : has_key d s = true <-> In s (keys d).
Proof. apply contains_In. Qed.

(** An order among the calls of entry generation is for a signalled
    security that holds no position. *)
Lemma generate_entries_order_inv pipe_bbands data c e s :
  In e (events_of (generate_entries pipe_bbands data c)) ->
  order_security e = Some s ->
  (In s (buy c) \/ In s (sell c)) /\ ~ In s (keys (positions c)).
Proof.
  rewrite generate_entries_run. cbn [events_of snd]. intros Hin Hord.
  apply in_app_or in Hin. destruct Hin as [Hin | Hin].
  { unfold signal_log in Hin. apply in_app_or in Hin.
    destruct Hin as [Hin | Hin];
      [destruct (existsb (fun r => row_buy (snd r)) pipe_bbands)
      |destruct (existsb (fun r => row_sell (snd r)) pipe_bbands)];
      simpl in Hin; try tauto; destruct Hin as [<- | []]; discriminate. }
  apply in_app_or in Hin. destruct Hin as [Hin | Hin];
    apply in_flat_map in Hin; destruct Hin as (x & Hx & Hin);
    [unfold long_entry in Hin | unfold short_entry in Hin];
    destruct (has_key (positions c) x) eqn:Hk; simpl in Hin; try tauto;
    destruct Hin as [<- | [<- | []]]; try discriminate;
    simpl in Hord; injection Hord as <-;
    (split; [auto|]); rewrite <- has_key_In; congruence.
Qed.

(** A signalled security with no position gets its order. *)
Lemma generate_entries_orders_new pipe_bbands data c s :
  In s (buy c) \/ In s (sell c) ->
  ~ In s (keys (positions c)) ->
  exists e, In e (events_of (generate_entries pipe_bbands data c))
            /\ order_security e = Some s.
Proof.
  intros Hsig Hnk. rewrite generate_entries_run. cbn [events_of snd].
  assert (Hk : has_key (positions c) s = false).
  { rewrite <- has_key_In in Hnk. now destruct (has_key (positions c) s). }
  destruct Hsig as [Hb | Hs].
  - exists (OrderTargetValue s (TRADE_SIZE c)). split; [|reflexivity].
    apply in_or_app. right. apply in_or_app. left.
    apply in_flat_map. exists s. split; [assumption|].
    unfold long_entry. rewrite Hk. now left.
  - exists (OrderTargetValue s (- TRADE_SIZE c)). split; [|reflexivity].
    apply in_or_app. right. apply in_or_app. right.
    apply in_flat_map. exists s. split; [assumption|].
    unfold short_entry. rewrite Hk. now left.
Qed.

Lemma count_occ_NoDup_In xs (s : Security) :
  NoDup xs -> In s xs -> count_occ string_dec xs s = 1%nat.
Proof.
  intros Hnd Hin.
  apply (proj1 (NoDup_count_occ string_dec xs)) with (x := s) in Hnd.
  apply (proj1 (count_occ_In string_dec xs s)) in Hin. lia.
Qed.

Lemma last_repeat_snoc {A} (a b d : A) n m :
  last (repeat a n ++ repeat b (S m)) d = b.
Proof.
  replace (S m) with (m + 1)%nat by lia.
  rewrite repeat_app, app_assoc. cbn [repeat]. apply last_last.
Qed.

(** ** The counters *)

Lemma counters_le_refl c : counters_le c c.
Proof. unfold counters_le. lia. Qed.

Lemma counters_le_trans c1 c2 c3 :
  counters_le c1 c2 -> counters_le c2 c3 -> counters_le c1 c3.
Proof. unfold counters_le. lia. Qed.

Lemma for_each_counters_le {A} (body : A -> M unit) :
  (forall x c, counters_le c (context_of (body x c))) ->
  forall xs c, counters_le c (context_of (for_each xs body c)).
Proof.
  apply (for_each_preserves counters_le body).
  - exact counters_le_refl.
  - exact counters_le_trans.
Qed.

Lemma check_position_counters_le data s c :
  counters_le c (context_of (check_position data s c)).
Proof.
  pose proof (risk_loop_invariant data [s] c) as (_ & Hw & Hl).
  rewrite for_each_cons in Hw, Hl.
  destruct (check_position data s c) as [[[u|e] c1] e1];
    cbn [for_each ret outcome_of context_of events_of fst snd] in *;
    split; assumption.
Qed.

Lemma check_profit_loss_counters_le data c :
  counters_le c (context_of (check_profit_loss data c)).
Proof.
  rewrite check_profit_loss_unfold.
  destruct (risk_loop_invariant data (keys (positions c)) c) as (_ & Hw & Hl).
  split; assumption.
Qed.

Lemma dispatch_counters_le cb c : counters_le c (context_of (dispatch cb c)).
Proof.
  destruct cb as [assets portfolio | assets portfolio data | portfolio data];
    unfold dispatch, bind, set_positions, get_context.
  - unfold before_trading_start, set_signals. cbn.
    unfold counters_le. cbn. lia.
  - rewrite generate_entries_run. cbn. unfold counters_le. cbn. lia.
  - unfold handle_data.
    match goal with
    | |- context [check_profit_loss data ?c1] =>
        pose proof (check_profit_loss_counters_le data c1) as H;
        destruct (check_profit_loss data c1) as [[r c2] e2]
    end.
    exact H.
Qed.

Lemma run_counters_le cbs c : counters_le c (context_of (run cbs c)).
Proof. apply for_each_counters_le. apply dispatch_counters_le. Qed.

(** ** The trading parameters along a run *)

Lemma same_parameters_refl c : same_parameters c c.
Proof. unfold same_parameters. tauto. Qed.

Lemma same_parameters_trans c1 c2 c3 :
  same_parameters c1 c2 -> same_parameters c2 c3 -> same_parameters c1 c3.
Proof.
  unfold same_parameters.
  intros (A1 & A2 & A3 & A4) (B1 & B2 & B3 & B4). repeat split; congruence.
Qed.

Lemma dispatch_same_parameters cb c :
  same_parameters c (context_of (dispatch cb c)).
Proof.
  destruct cb as [assets portfolio | assets portfolio data | portfolio data];
    unfold dispatch, bind, set_positions, get_context.
  - unfold before_trading_start, set_signals. cbn.
    unfold same_parameters. cbn. tauto.
  - rewrite generate_entries_run. cbn. unfold same_parameters. cbn. tauto.
  - unfold handle_data.
    match goal with
    | |- context [check_profit_loss data ?c1] =>
        pose proof (risk_loop_invariant data (keys (positions c1)) c1) as H;
        rewrite <- check_profit_loss_unfold in H;
        destruct (check_profit_loss data c1) as [[r c2] e2]
    end.
    cbn [context_of fst snd] in *.
    destruct H as ((H1 & H2 & H3 & H4 & _) & _).
    unfold same_parameters. cbn in *. tauto.
Qed.

Lemma run_same_parameters cbs c : same_parameters c (context_of (run cbs c)).
Proof.
  unfold run. apply (for_each_preserves same_parameters dispatch).
  - exact same_parameters_refl.
  - exact same_parameters_trans.
  - intros cb c'. apply dispatch_same_parameters.
Qed.

(** ** Indicator rows *)

Lemma Qdiv_pos_iff (x p : Q) : (0 < p)%Q -> (0 < x / p)%Q <-> (0 < x)%Q.
Proof.
  intro Hp. split; intro H.
  - assert (Hne : ~ (p == 0)%Q) by (intro E; rewrite E in Hp; lra).
    setoid_replace x with (x / p * p)%Q by (field; exact Hne).
    apply Qmult_lt_0_compat; assumption.
  - apply Qlt_shift_div_l; [assumption | lra].
Qed.

Lemma factor_gt_percent_iff (x p : Q) :
  (0 < p)%Q ->
  factor_gt (factor_div (x * 100) p) 0 = true <-> (0 < x)%Q.
Proof.
  intro Hp. unfold factor_gt, factor_div, fdiv.
  assert (Hne : Qeq_bool p 0 = false).
  { apply Qeq_bool_false_iff. intro E. rewrite E in Hp. lra. }
  rewrite Hne. cbn [fgt]. rewrite Qgtb_iff, (Qdiv_pos_iff _ _ Hp).
  split; intro; lra.
Qed.

Lemma buy_filter_iff a :
  (0 < price a)%Q -> buy_filter a = true <-> (price a < lower_band_factor a)%Q.
Proof.
  intro Hp. unfold buy_filter, buy_percent_factor.
  rewrite (factor_gt_percent_iff _ _ Hp). split; intro; lra.
Qed.

Lemma sell_filter_iff a :
  (0 < price a)%Q -> sell_filter a = true <-> (upper_band_factor a < price a)%Q.
Proof.
  intro Hp. unfold sell_filter, sell_percent_factor.
  rewrite (factor_gt_percent_iff _ _ Hp). split; intro; lra.
Qed.

Lemma factor_div_defined (x p : Q) :
  (0 < p)%Q -> factor_div x p = Finite (x / p)%Q.
Proof.
  intro Hp. unfold factor_div, fdiv.
  assert (Hne : Qeq_bool p 0 = false).
  { apply Qeq_bool_false_iff. intro E. rewrite E in Hp. lra. }
  now rewrite Hne.
Qed.

Lemma pipeline_output_row c assets s row :
  In (s, row) (pipeline_output (make_pipeline c) assets) ->
  exists a, In a assets /\ sid a = s
            /\ top_mkt_cap_tech_filter c assets a = true
            /\ row = columns (make_pipeline c) a.
Proof.
  unfold pipeline_output. intro Hin.
  apply in_map_iff in Hin. destruct Hin as (a & Heq & Ha).
  apply filter_In in Ha. destruct Ha as [Ha Hscreen].
  injection Heq as Hs Hrow. exists a. auto.
Qed.

(** ** The universe filter *)

Section Ranking.

Variable key : Asset -> Q.

(** [a] ranks at least as high as [b]. *)
Let above (a b : Asset) : Prop := (key b <= key a)%Q.

Lemma insert_desc_perm a l : Permutation (insert_desc key a l) (a :: l).
Proof.
  induction l as [|b l IH]; simpl; [reflexivity|].
  destruct (Qle_bool (key b) (key a)); [reflexivity|].
  rewrite IH. apply perm_swap.
Qed.

Lemma sort_desc_perm l : Permutation (sort_desc key l) l.
Proof.
  induction l as [|a l IH]; simpl; [reflexivity|].
  rewrite insert_desc_perm. now constructor.
Qed.

Lemma insert_desc_sorted a l :
  StronglySorted above l -> StronglySorted above (insert_desc key a l).
Proof.
  induction 1 as [|b l Hs IH Hb]; simpl.
  - repeat constructor.
  - destruct (Qle_bool (key b) (key a)) eqn:E.
    + apply Qle_bool_iff in E. constructor.
      * now constructor.
      * constructor; [exact E|].
        rewrite Forall_forall in Hb |- *. intros y Hy.
        unfold above in *. eapply Qle_trans; [apply Hb; exact Hy | exact E].
    + assert (Hlt : (key a <= key b)%Q).
      { destruct (Qlt_le_dec (key a) (key b)) as [H | H].
        - now apply Qlt_le_weak.
        - apply Qle_bool_iff in H. congruence. }
      constructor; [exact IH|].
      rewrite Forall_forall in Hb |- *. intros y Hy.
      apply (Permutation_in _ (insert_desc_perm a l)) in Hy.
      destruct Hy as [<- | Hy]; [exact Hlt | now apply Hb].
Qed.

Lemma sort_desc_sorted l : StronglySorted above (sort_desc key l).
Proof.
  induction l as [|a l IH]; simpl; [constructor|].
  now apply insert_desc_sorted.
Qed.

(** In a ranked list everything among the first [n] ranks at least
    as high as everything after them. *)
Lemma sorted_firstn_skipn l :
  StronglySorted above l ->
  forall n x y, In x (firstn n l) -> In y (skipn n l) -> (key y <= key x)%Q.
Proof.
  induction 1 as [|b l Hs IH Hb]; intros n x y Hx Hy.
  - rewrite firstn_nil in Hx. destruct Hx.
  - destruct n as [|n]; [destruct Hx|].
    cbn [firstn skipn] in Hx, Hy. destruct Hx as [<- | Hx].
    + rewrite Forall_forall in Hb. apply Hb.
      rewrite <- (firstn_skipn n l). apply in_or_app. now right.
    + eapply IH; eauto.
Qed.

End Ranking.

Lemma NoDup_map_injective {A B} (f : A -> B) (l : list A) x y :
  NoDup (map f l) -> In x l -> In y l -> f x = f y -> x = y.
Proof.
  induction l as [|a l IH]; simpl; [tauto|].
  intros Hnd Hx Hy Hf. inversion Hnd as [|? ? Hnotin Hnd']; subst.
  destruct Hx as [-> | Hx], Hy as [-> | Hy]; auto.
  - exfalso. apply Hnotin. rewrite Hf. now apply in_map.
  - exfalso. apply Hnotin. rewrite <- Hf. now apply in_map.
Qed.

Lemma top_members_incl N key mask assets a :
  In a (top_members N key mask assets) ->
  In a assets /\ mask assets a = true.
Proof.
  unfold top_members. intro H.
  assert (Hs : In a (sort_desc key (filter (mask assets) assets))).
  { rewrite <- (firstn_skipn N (sort_desc key (filter (mask assets) assets))).
    apply in_or_app. now left. }
  apply (Permutation_in _ (sort_desc_perm key _)) in Hs.
  now apply filter_In in Hs.
Qed.

Lemma top_iff N key mask assets a :
  NoDup (map sid assets) -> In a assets ->
  top N key mask assets a = true <-> In a (top_members N key mask assets).
Proof.
  intros Hnd Ha. unfold top. rewrite existsb_exists. split.
  - intros (m & Hm & Heq). apply String.eqb_eq in Heq.
    destruct (top_members_incl _ _ _ _ _ Hm) as [Hma _].
    now rewrite <- (NoDup_map_injective sid assets m a Hnd Hma Ha Heq).
  - intro Hm. exists a. split; [assumption | apply String.eqb_refl].
Qed.

Lemma universe_snapshot_iff c assets a :
  NoDup (map sid assets) ->
  In a (universe_snapshot c assets)
  <-> In a (top_members (NUM_SYMBOLS c) market_cap_latest
                        tech_universe_filter assets).
Proof.
  intro Hnd. unfold universe_snapshot. cbn [make_pipeline screen].
  unfold top_mkt_cap_tech_filter. rewrite filter_In. split.
  - intros [Ha Ht]. now apply (top_iff _ _ _ _ _ Hnd Ha).
  - intro Hm. destruct (top_members_incl _ _ _ _ _ Hm) as [Ha _].
    split; [assumption | now apply (top_iff _ _ _ _ _ Hnd Ha)].
Qed.

(** ** A security in both signal lists *)

Lemma before_trading_start_buy pipe_bbands c s :
  In s (buy (context_of (before_trading_start pipe_bbands c)))
  <-> exists row, In (s, row) pipe_bbands /\ row_buy row = true.
Proof.
  unfold before_trading_start, set_signals. cbn [context_of fst snd buy].
  rewrite in_map_iff. split.
  - intros ([s' row] & Heq & Hin). simpl in Heq. subst s'.
    apply filter_In in Hin. destruct Hin as [Hin Hb]. eauto.
  - intros (row & Hin & Hb). exists (s, row). split; [reflexivity|].
    apply filter_In. auto.
Qed.

Lemma before_trading_start_sell pipe_bbands c s :
  In s (sell (context_of (before_trading_start pipe_bbands c)))
  <-> exists row, In (s, row) pipe_bbands /\ row_sell row = true.
Proof.
  unfold before_trading_start, set_signals. cbn [context_of fst snd sell].
  rewrite in_map_iff. split.
  - intros ([s' row] & Heq & Hin). simpl in Heq. subst s'.
    apply filter_In in Hin. destruct Hin as [Hin Hb]. eauto.
  - intros (row & Hin & Hb). exists (s, row). split; [reflexivity|].
    apply filter_In. auto.
Qed.

(** With distinct identifiers and a positive price, a security ends up
    in both lists only when its upper band is below its lower band. *)
Lemma both_signals_degenerate c0 c assets a :
  NoDup (map sid assets) -> In a assets -> (0 < price a)%Q ->
  let c' := context_of (before_trading_start
                          (pipeline_output (make_pipeline c0) assets) c) in
  In (sid a) (buy c') -> In (sid a) (sell c') ->
  (upper_band_factor a < lower_band_factor a)%Q.
Proof.
  intros Hnd Ha Hp c' Hb Hs. subst c'.
  apply before_trading_start_buy in Hb. destruct Hb as (rb & Hrb & Hb).
  apply before_trading_start_sell in Hs. destruct Hs as (rs & Hrs & Hs).
  destruct (pipeline_output_row _ _ _ _ Hrb) as (a1 & Ha1 & Hs1 & _ & ->).
  destruct (pipeline_output_row _ _ _ _ Hrs) as (a2 & Ha2 & Hs2 & _ & ->).
  assert (a1 = a) by (eapply NoDup_map_injective; eauto).
  assert (a2 = a) by (eapply NoDup_map_injective; eauto).
  subst a1 a2. cbn [make_pipeline columns row_buy row_sell] in Hb, Hs.
  apply (buy_filter_iff a Hp) in Hb. apply (sell_filter_iff a Hp) in Hs. lra.
Qed.

(** * The properties *)

(** ** The flatten decision *)

(** C1, as amended.  For every open position whose price is not
    zero, the iteration of the risk check that evaluates it places the
    target-zero order exactly when the position meets the formula
    whose short branch is [amount < 0]: the security is in neither
    signal list and profit or loss holds, with [price_diff_percent =
    (current_price - cost_basis) * 100 / current_price].  For a
    position whose amount is not zero this is the design document's
    formula, whose short branch is [not is_long].  Over a whole risk
    check an order placed always goes back to the formula, and where
    no open position is quoted at zero the order is placed exactly
    when the formula holds. *)
Theorem check_profit_loss_decision data c s p :
  lookup (positions c) s = Some p ->
  ~ (current data s == 0)%Q ->
  (flattened data s c <-> code_flatten c data s p)
  /\ (amount p <> 0 -> (flattened data s c <-> spec_flatten c data s p))
  /\ (In (OrderTargetPercent s 0) (events_of (check_profit_loss data c)) ->
      code_flatten c data s p)
  /\ ((forall k, In k (keys (positions c)) -> ~ (current data k == 0)%Q) ->
      (In (OrderTargetPercent s 0) (events_of (check_profit_loss data c))
       <-> code_flatten c data s p)).
Proof.
  intros Hl Hprice.
  assert (Hp : Qeq_bool (current data s) 0 = false)
    by now apply Qeq_bool_false_iff.
  assert (Hbody : flattened data s c <-> code_flatten c data s p).
  { rewrite <- flatten_test_iff. unfold flattened.
    rewrite (check_position_unfold data s c p Hl Hp).
    destruct (flatten_test c data s p).
    - rewrite flatten_branch_run. cbn [events_of snd In]. intuition.
    - cbn [events_of snd In]. intuition discriminate. }
  split; [exact Hbody|].
  split; [intro Ha; rewrite Hbody; now apply Code_flatten_Spec|].
  split.
  - intro Hin. rewrite check_profit_loss_unfold in Hin.
    destruct (risk_loop_orders_sound data _ c _ s Hin eq_refl)
      as (_ & _ & p' & Hl' & _ & Ht).
    apply flatten_test_iff. congruence.
  - intro Hprices. now apply check_profit_loss_orders_iff.
Qed.

Lemma check_profit_loss_decision_witness :
  let c := started [] [] [("AAA", mkPosition 50 100)] in
  let d := quotes [] 102 in
  (flattened d "AAA" c <-> spec_flatten c d "AAA" (mkPosition 50 100))
  /\ In (OrderTargetPercent "AAA" 0) (events_of (check_profit_loss d c))
  /\ code_flatten c d "AAA" (mkPosition 50 100).
Proof.
  intros c d.
  destruct (check_profit_loss_decision d c "AAA" (mkPosition 50 100))
    as (Hcode & Hspec & Hsound & Hloop).
  - reflexivity.
  - vm_compute. discriminate.
  - assert (Hin : In (OrderTargetPercent "AAA" 0)
                     (events_of (check_profit_loss d c))).
    { apply Hloop.
      - intros k [<- | []]. vm_compute. discriminate.
      - apply Hcode. vm_compute. tauto. }
    split; [apply Hspec; simpl; lia | split; [exact Hin | exact (Hsound Hin)]].
Defined.

(** C1, as the document words it, fails on a position of zero shares:
    with cost basis 100 and price 98 the document's [not is_long]
    branch makes it a profit exit, and the risk check places no
    order. *)
Lemma zero_amount_escapes_spec_formula :
  let c := started [] [] [("AAA", mkPosition 0 100)] in
  let d := quotes [] 98 in
  spec_flatten c d "AAA" (mkPosition 0 100)
  /\ ~ flattened d "AAA" c
  /\ ~ In (OrderTargetPercent "AAA" 0) (events_of (check_profit_loss d c)).
Proof.
  intros c d. split; [|split].
  - unfold spec_flatten; cbv zeta. split; [simpl; tauto|].
    split; [simpl; tauto|].
    left. right. split.
    + unfold spec_is_long. simpl. lia.
    + vm_compute. reflexivity.
  - vm_compute. tauto.
  - vm_compute. tauto.
Qed.

(** ** What flattening does *)

(** C3.  With thresholds that are not negative (they are 1 in
    [initialize]), an iteration of the risk check that flattens a
    position completes, places exactly one order for the security, a
    target of zero whatever the portfolio is worth, and is a profit
    exit or a loss exit: on a profit exit [winners] grows by
    [|amount| * MIN_PROFIT_PERCENT] and [losers] stays, on a loss exit
    [losers] grows by [|amount| * MAX_LOSS_PERCENT] and [winners]
    stays; the realised percentage does not enter.  A risk check that
    completes has added to [winners] the sum of
    [|amount| * MIN_PROFIT_PERCENT] over its profit exits and to
    [losers] the sum of [|amount| * MAX_LOSS_PERCENT] over its other
    exits.  Along any run from [initialize] both thresholds stay 1.
    In the scenario
    cost basis 100, price 102, amount +50, [MIN_PROFIT_PERCENT = 1],
    security in neither list: [price_diff_percent] lies between 1.96
    and 1.97, profit holds, the position is flattened and [winners]
    grows by 50. *)
Theorem flatten_effect :
  (forall data c s p,
     0 <= MIN_PROFIT_PERCENT c ->
     0 <= MAX_LOSS_PERCENT c ->
     lookup (positions c) s = Some p ->
     flattened data s c ->
     let r := check_position data s c in
     let pdp := spec_price_diff_percent (current data s) (cost_basis p) in
     outcome_of r = Ok tt
     /\ orders_for s (events_of r) = [OrderTargetPercent s 0]
     /\ (forall portfolio_value,
           exists v, target_value portfolio_value (OrderTargetPercent s 0)
                     = Some v /\ (v == 0)%Q)
     /\ (spec_profit (MIN_PROFIT_PERCENT c) (amount p) pdp
         \/ spec_loss (MAX_LOSS_PERCENT c) (amount p) pdp)
     /\ (spec_profit (MIN_PROFIT_PERCENT c) (amount p) pdp ->
         winners (context_of r)
         = winners c + Z.abs (amount p) * MIN_PROFIT_PERCENT c
         /\ losers (context_of r) = losers c)
     /\ (spec_loss (MAX_LOSS_PERCENT c) (amount p) pdp ->
         losers (context_of r)
         = losers c + Z.abs (amount p) * MAX_LOSS_PERCENT c
         /\ winners (context_of r) = winners c))
  /\ (forall data c,
        0 <= MIN_PROFIT_PERCENT c ->
        0 <= MAX_LOSS_PERCENT c ->
        outcome_of (check_profit_loss data c) = Ok tt ->
        winners (context_of (check_profit_loss data c))
        = winners c + total (profit_exit_size c data) (keys (positions c))
        /\ losers (context_of (check_profit_loss data c))
           = losers c + total (loss_exit_size c data) (keys (positions c)))
  /\ (forall cbs c,
        MIN_PROFIT_PERCENT (context_of (run cbs (context_of (initialize c))))
        = 1
        /\ MAX_LOSS_PERCENT (context_of (run cbs (context_of (initialize c))))
           = 1)
  /\ (forall data c s,
        MIN_PROFIT_PERCENT c = 1 ->
        lookup (positions c) s = Some (mkPosition 50 100) ->
        current data s = 102%Q ->
        ~ In s (buy c) -> ~ In s (sell c) ->
        let pdp := spec_price_diff_percent 102 100 in
        (196 # 100 < pdp)%Q /\ (pdp < 197 # 100)%Q
        /\ spec_profit 1 50 pdp
        /\ flattened data s c
        /\ winners (context_of (check_position data s c)) = winners c + 50
        /\ losers (context_of (check_position data s c)) = losers c).
Proof.
  split; [|split; [|split]].
  - intros data c s p Hmin Hmax Hl Hf r pdp. subst r.
    destruct (flattened_inv data c s p Hl Hf) as (Hp & Ht & E).
    assert (Ha : amount p <> 0).
    { intro Ha. rewrite (flatten_test_zero_amount c data s p Ha) in Ht.
      discriminate. }
    assert (Hpl : profit_of c p (price_diff_percent data s p) = true
                  \/ loss_of c p (price_diff_percent data s p) = true).
    { unfold flatten_test in Ht. apply andb_true_iff in Ht.
      destruct Ht as [_ Ht]. now apply orb_true_iff in Ht. }
    rewrite E. cbn [outcome_of context_of events_of fst snd].
    split; [reflexivity|]. split.
    { change (?a :: ?b :: ?l) with ([a; b] ++ l).
      rewrite orders_for_app, orders_for_recorded.
      unfold orders_for. cbn [filter]. unfold is_order_for.
      cbn [order_security]. now rewrite String.eqb_refl. }
    split.
    { intro pv. exists (0 * pv)%Q. split; [reflexivity | ring]. }
    subst pdp.
    change (spec_price_diff_percent (current data s) (cost_basis p))
      with (price_diff_percent data s p).
    rewrite <- (Code_profit_Spec _ _ _ Ha), <- (Code_loss_Spec _ _ _ Ha).
    rewrite <- profit_of_iff, <- loss_of_iff.
    split; [exact Hpl|]. split.
    + intros Hprofit. rewrite Hprofit. now apply book_profit_counters.
    + intros Hloss.
      destruct (profit_of c p (price_diff_percent data s p)) eqn:Hprofit.
      * exfalso. eapply (profit_loss_exclusive c p); eauto.
      * now apply book_loss_counters.
  - intros data c Hmin Hmax. rewrite check_profit_loss_unfold.
    now apply risk_loop_counters.
  - intros cbs c.
    destruct (run_same_parameters cbs (context_of (initialize c)))
      as (_ & _ & Hmin & Hmax).
    rewrite Hmin, Hmax. split; reflexivity.
  - intros data c s Hmin Hl Hprice Hb Hs pdp.
    assert (Hlt1 : (196 # 100 < pdp)%Q) by (vm_compute; reflexivity).
    assert (Hlt2 : (pdp < 197 # 100)%Q) by (vm_compute; reflexivity).
    assert (Hsp : spec_profit 1 50 pdp).
    { left. split; [unfold spec_is_long; lia | vm_compute; reflexivity]. }
    assert (Hpo : profit_of c (mkPosition 50 100)
                    (price_diff_percent data s (mkPosition 50 100)) = true).
    { unfold profit_of, price_diff_percent. rewrite Hmin, Hprice.
      vm_compute. reflexivity. }
    assert (Hz : Qeq_bool (current data s) 0 = false)
      by (rewrite Hprice; reflexivity).
    assert (Ht : flatten_test c data s (mkPosition 50 100) = true).
    { unfold flatten_test. rewrite Hpo.
      apply contains_false_iff in Hb. apply contains_false_iff in Hs.
      now rewrite Hb, Hs. }
    pose proof (check_position_flatten data s c _ Hl Hz Ht) as E.
    rewrite Hpo in E.
    repeat split; try assumption.
    + unfold flattened. rewrite E. cbn [events_of snd In]. auto.
    + rewrite E. cbn [context_of fst snd]. unfold book. simpl.
      rewrite Hmin. reflexivity.
    + rewrite E. reflexivity.
Qed.

Lemma flatten_effect_witness :
  let c := started [] [] [("AAA", mkPosition (-50) 100);
                          ("BBB", mkPosition 50 100)] in
  let d := quotes [] 102 in
  let r := check_position d "AAA" c in
  (orders_for "AAA" (events_of r) = [OrderTargetPercent "AAA" 0]
   /\ losers (context_of r) = losers c + Z.abs (-50) * MAX_LOSS_PERCENT c)
  /\ (winners (context_of (check_profit_loss d c)) = 50
      /\ losers (context_of (check_profit_loss d c)) = 50)
  /\ winners (context_of (check_position d "BBB" c)) = winners c + 50.
Proof.
  intros c d r.
  destruct flatten_effect as (Hbody & Hloop & _ & Hscenario).
  split; [|split].
  - destruct (Hbody d c "AAA" (mkPosition (-50) 100))
      as (_ & Ho & _ & _ & _ & Hloss).
    + vm_compute. discriminate.
    + vm_compute. discriminate.
    + reflexivity.
    + vm_compute. tauto.
    + split; [exact Ho|].
      apply Hloss. right. split.
      * unfold spec_is_long. simpl. lia.
      * vm_compute. reflexivity.
  - destruct (Hloop d c) as [Hw Hl].
    + vm_compute. discriminate.
    + vm_compute. discriminate.
    + reflexivity.
    + rewrite Hw, Hl. split; reflexivity.
  - destruct (Hscenario d c "BBB") as (_ & _ & _ & _ & Hw & _).
    + reflexivity.
    + reflexivity.
    + reflexivity.
    + simpl. tauto.
    + simpl. tauto.
    + exact Hw.
Defined.

(** ** Securities with a signal of the day *)

(** C4.  A security that is in the day's buy list or sell list is
    never flattened by the risk check, whatever its position and
    price: the iteration that evaluates it leaves the context (so both
    counters) as it was and calls nothing, the whole risk check places
    no order for it, and where its price is not zero the risk check
    does exactly what it would do without visiting it. *)
Theorem signalled_never_flattened data c s :
  In s (buy c) \/ In s (sell c) ->
  context_of (check_position data s c) = c
  /\ events_of (check_position data s c) = []
  /\ orders_for s (events_of (check_profit_loss data c)) = []
  /\ (~ (current data s == 0)%Q ->
      check_profit_loss data c
      = for_each (remove string_dec s (keys (positions c)))
                 (check_position data) c).
Proof.
  intro Hsig.
  assert (Hbody : context_of (check_position data s c) = c
                  /\ events_of (check_position data s c) = []).
  { destruct (check_position_cases data s c)
      as [Hl E | p Hl Hp E | p Hl Hp Ht E | p Hl Hp Ht E];
      try (rewrite E; auto).
    rewrite (flatten_test_signalled c data s p Hsig) in Ht. discriminate. }
  destruct Hbody as [Hc He].
  split; [exact Hc | split; [exact He | split]].
  - apply orders_for_nil_iff. intros e Hin Hord.
    rewrite check_profit_loss_unfold in Hin.
    destruct (risk_loop_orders_sound data _ c e s Hin Hord)
      as (_ & _ & p & _ & _ & Ht).
    rewrite (flatten_test_signalled c data s p Hsig) in Ht. discriminate.
  - intro Hprice. rewrite check_profit_loss_unfold.
    destruct (in_dec string_dec s (keys (positions c))) as [Hin | Hnin].
    + destruct (In_keys_lookup _ _ Hin) as [p Hl].
      apply risk_loop_skip. intros c' Hc'.
      apply (check_position_keep data s c' p).
      * destruct Hc' as (_ & _ & _ & _ & _ & _ & Hpos). now rewrite Hpos.
      * now apply Qeq_bool_false_iff.
      * apply flatten_test_signalled.
        destruct Hc' as (_ & _ & _ & _ & Hb & Hs & _). now rewrite Hb, Hs.
    + now rewrite notin_remove.
Qed.

Lemma signalled_never_flattened_witness :
  let c := started ["AAA"] [] [("AAA", mkPosition 50 100);
                               ("BBB", mkPosition 50 100)] in
  let d := quotes [] 102 in
  orders_for "AAA" (events_of (check_profit_loss d c)) = []
  /\ context_of (check_position d "AAA" c) = c
  /\ check_profit_loss d c = for_each ["BBB"] (check_position d) c.
Proof.
  intros c d.
  destruct (signalled_never_flattened d c "AAA") as (Hc & _ & Ho & Hskip).
  - left. simpl. auto.
  - split; [exact Ho | split; [exact Hc |]].
    apply Hskip. vm_compute. discriminate.
Defined.

(** ** Running entry generation again *)

(** C5.  Entry generation completes and leaves the context, so the
    positions and the signal lists, as it found it; it requests no
    order for any security that holds a position.  Run again on the
    same signal lists once every security it ordered holds a position
    (and no earlier holder has dropped out), it requests no order at
    all. *)
Theorem generate_entries_idempotent pipe_bbands data c :
  let r1 := generate_entries pipe_bbands data c in
  outcome_of r1 = Ok tt
  /\ context_of r1 = c
  /\ (forall s, In s (keys (positions c)) -> orders_for s (events_of r1) = [])
  /\ (forall portfolio pipe_bbands' data',
        (forall s, In s (keys (positions c)) -> In s (keys portfolio)) ->
        (forall e s, In e (events_of r1) -> order_security e = Some s ->
                     In s (keys portfolio)) ->
        let r2 := generate_entries pipe_bbands' data'
                    (with_positions (context_of r1) portfolio) in
        buy (context_of r2) = buy c /\ sell (context_of r2) = sell c
        /\ forall e, In e (events_of r2) -> order_security e = None).
Proof.
  intro r1. subst r1.
  split; [now rewrite generate_entries_run|].
  split; [now rewrite generate_entries_run|].
  split.
  - intros s Hs. rewrite generate_entries_orders_for.
    apply has_key_In in Hs. now rewrite Hs.
  - intros portfolio pipe' data' Hkept Hfilled r2. subst r2.
    assert (Hc : context_of (generate_entries pipe_bbands data c) = c)
      by now rewrite generate_entries_run.
    rewrite Hc.
    split; [now rewrite generate_entries_run|].
    split; [now rewrite generate_entries_run|].
    intros e Hin.
    destruct (order_security e) as [s|] eqn:Hord; [exfalso | reflexivity].
    destruct (generate_entries_order_inv _ _ _ _ _ Hin Hord) as [Hsig Hnk].
    apply Hnk. cbn [with_positions set_positions context_of fst snd positions].
    cbn [with_positions set_positions context_of fst snd buy sell] in Hsig.
    destruct (in_dec string_dec s (keys (positions c))) as [Hk | Hk].
    + now apply Hkept.
    + destruct (generate_entries_orders_new pipe_bbands data c s Hsig Hk)
        as (e1 & He1 & Ho1).
      now apply (Hfilled e1 s).
Qed.

Lemma generate_entries_idempotent_witness :
  let c := started ["AAA"; "BBB"] ["CCC"] [("AAA", mkPosition 50 100)] in
  let d := quotes [] 102 in
  orders_for "AAA" (events_of (generate_entries [] d c)) = []
  /\ forall e,
       In e (events_of
               (generate_entries [] d
                  (with_positions (context_of (generate_entries [] d c))
                     [("AAA", mkPosition 50 100);
                      ("BBB", mkPosition 980 102);
                      ("CCC", mkPosition (-980) 102)]))) ->
       order_security e = None.
Proof.
  intros c d.
  destruct (generate_entries_idempotent [] d c) as (_ & _ & Hheld & Hagain).
  split.
  - apply Hheld. simpl. auto.
  - refine (proj2 (proj2 (Hagain [("AAA", mkPosition 50 100);
                                  ("BBB", mkPosition 980 102);
                                  ("CCC", mkPosition (-980) 102)] [] d _ _))).
    + intros s Hs. simpl in Hs |- *. tauto.
    + intros e s He Ho. vm_compute in He.
      destruct He as [<- | [<- | [<- | [<- | []]]]];
        simpl in Ho; try discriminate; injection Ho as <-; simpl; auto.
Defined.

(** ** Indicator rows *)

(** C6.  For every row of the pipeline's output whose price is
    positive: [buy_percent] is [(lower_band - price) * 100 / price]
    and [sell_percent] is [(price - upper_band) * 100 / price]; the
    buy flag is set exactly when [buy_percent > 0], which is exactly
    when [price < lower_band]; the sell flag is set exactly when
    [sell_percent > 0], which is exactly when [price > upper_band];
    and with [lower_band < upper_band] the two flags are never both
    set. *)
Theorem indicator_row_flags c assets s row :
  In (s, row) (pipeline_output (make_pipeline c) assets) ->
  (0 < row_price row)%Q ->
  row_buy_percent row
  = Finite ((row_lower_band row - row_price row) * 100 / row_price row)%Q
  /\ row_sell_percent row
     = Finite ((row_price row - row_upper_band row) * 100 / row_price row)%Q
  /\ (row_buy row = true
      <-> exists bp, row_buy_percent row = Finite bp /\ (0 < bp)%Q)
  /\ (row_buy row = true <-> (row_price row < row_lower_band row)%Q)
  /\ (row_sell row = true
      <-> exists sp, row_sell_percent row = Finite sp /\ (0 < sp)%Q)
  /\ (row_sell row = true <-> (row_upper_band row < row_price row)%Q)
  /\ ((row_lower_band row < row_upper_band row)%Q ->
      ~ (row_buy row = true /\ row_sell row = true)).
Proof.
  intros Hin Hp.
  destruct (pipeline_output_row c assets s row Hin) as (a & _ & _ & _ & ->).
  cbn [make_pipeline columns row_buy_percent row_sell_percent row_buy row_sell
       row_price row_lower_band row_upper_band] in *.
  pose proof (buy_filter_iff a Hp) as Hbuy.
  pose proof (sell_filter_iff a Hp) as Hsell.
  assert (Hbp : buy_percent_factor a
                = Finite ((lower_band_factor a - price a) * 100 / price a)%Q)
    by (apply factor_div_defined; exact Hp).
  assert (Hsp : sell_percent_factor a
                = Finite ((price a - upper_band_factor a) * 100 / price a)%Q)
    by (apply factor_div_defined; exact Hp).
  split; [exact Hbp|]. split; [exact Hsp|].
  split; [|split; [exact Hbuy|split; [|split; [exact Hsell|]]]].
  - unfold buy_filter. rewrite Hbp. unfold factor_gt. cbn [fgt].
    rewrite Qgtb_iff. split.
    + intro H. eauto.
    + intros (bp & Heq & H). injection Heq as <-. exact H.
  - unfold sell_filter. rewrite Hsp. unfold factor_gt. cbn [fgt].
    rewrite Qgtb_iff. split.
    + intro H. eauto.
    + intros (sp & Heq & H). injection Heq as <-. exact H.
  - intros Hband [Hb Hs]. apply Hbuy in Hb. apply Hsell in Hs. lra.
Qed.

Lemma indicator_row_flags_witness :
  let row := columns (make_pipeline two_symbols)
               (mkAsset "AAA" true 311 (900 # 1) (95 # 1)
                        (100 # 1, 105 # 1, 110 # 1)) in
  (row_buy row = true <-> (row_price row < row_lower_band row)%Q)
  /\ ~ (row_buy row = true /\ row_sell row = true).
Proof.
  intro row.
  destruct (indicator_row_flags two_symbols example_assets "AAA" row)
    as (_ & _ & _ & Hbuy & _ & _ & Hexcl).
  - vm_compute. auto.
  - vm_compute. reflexivity.
  - split; [exact Hbuy|]. apply Hexcl. vm_compute. reflexivity.
Defined.

(** ** The counters *)

(** C7.  [initialize] sets both counters to zero.  After that neither
    counter ever goes down: not in one evaluation of the loop body,
    not in one risk check, and not along any sequence of callbacks,
    whether or not it ends in an exception; every update adds an
    absolute value. *)
Theorem counters_monotone :
  (forall c, winners (context_of (initialize c)) = 0
             /\ losers (context_of (initialize c)) = 0)
  /\ (forall data s c,
        winners c <= winners (context_of (check_position data s c))
        /\ losers c <= losers (context_of (check_position data s c)))
  /\ (forall data c,
        winners c <= winners (context_of (check_profit_loss data c))
        /\ losers c <= losers (context_of (check_profit_loss data c)))
  /\ (forall cbs1 cbs2 c,
        winners (context_of (run cbs1 c))
        <= winners (context_of (run (cbs1 ++ cbs2) c))
        /\ losers (context_of (run cbs1 c))
           <= losers (context_of (run (cbs1 ++ cbs2) c)))
  /\ (forall cbs c,
        0 <= winners (context_of (run cbs (context_of (initialize c))))
        /\ 0 <= losers (context_of (run cbs (context_of (initialize c))))).
Proof.
  split; [intro c; split; reflexivity|].
  split; [intros; apply check_position_counters_le|].
  split; [intros; apply check_profit_loss_counters_le|].
  assert (Happ : forall cbs1 cbs2 c,
             counters_le (context_of (run cbs1 c))
                         (context_of (run (cbs1 ++ cbs2) c))).
  { intros cbs1 cbs2 c. unfold run. rewrite for_each_app.
    destruct (for_each cbs1 dispatch c) as [[[u|e] c1] e1];
      cbn [context_of fst snd].
    - apply (run_counters_le cbs2 c1).
    - apply counters_le_refl. }
  split; [exact Happ|].
  intros cbs c. apply (run_counters_le cbs (context_of (initialize c))).
Qed.

(** ** The universe *)

(** C8.  On a table whose identifiers are distinct, the universe the
    screen lets through has at most [NUM_SYMBOLS] members, as many as
    there are qualifying assets up to that bound; every
    member is in the base universe and has sector code 311; every
    sector member of the base universe left out has a market
    capitalisation no larger than that of any member; and when at
    most [NUM_SYMBOLS] assets pass the sector filter the universe is
    all of them.  The filter is a total function: nothing is raised. *)
Theorem universe_snapshot_bounded c assets :
  NoDup (map sid assets) ->
  (List.length (universe_snapshot c assets) <= NUM_SYMBOLS c)%nat
  /\ List.length (universe_snapshot c assets)
     = Nat.min (NUM_SYMBOLS c)
               (List.length (filter (tech_universe_filter assets) assets))
  /\ (forall m, In m (universe_snapshot c assets) ->
        In m assets /\ Q500US m = true /\ Sector m = 311)
  /\ (forall m x,
        In m (universe_snapshot c assets) ->
        In x assets -> Q500US x = true -> Sector x = 311 ->
        ~ In x (universe_snapshot c assets) ->
        (market_cap_latest x <= market_cap_latest m)%Q)
  /\ ((List.length (filter (tech_universe_filter assets) assets)
       <= NUM_SYMBOLS c)%nat ->
      universe_snapshot c assets = filter (tech_universe_filter assets) assets).
Proof.
  intro Hnd.
  assert (Hnda : NoDup assets) by (eapply NoDup_map_inv; eauto).
  set (ranked := sort_desc market_cap_latest
                   (filter (tech_universe_filter assets) assets)).
  assert (Htop : top_members (NUM_SYMBOLS c) market_cap_latest
                   tech_universe_filter assets
                 = firstn (NUM_SYMBOLS c) ranked) by reflexivity.
  assert (Hlen : List.length (universe_snapshot c assets)
                 = List.length (firstn (NUM_SYMBOLS c) ranked)).
  { apply Permutation_length. apply NoDup_Permutation.
    - unfold universe_snapshot. now apply NoDup_filter.
    - assert (Hr : NoDup ranked).
      { apply (Permutation_NoDup (Permutation_sym (sort_desc_perm _ _))).
        now apply NoDup_filter. }
      rewrite <- (firstn_skipn (NUM_SYMBOLS c) ranked) in Hr.
      now apply NoDup_app_remove_r in Hr.
    - intro a. rewrite <- Htop. apply (universe_snapshot_iff c assets a Hnd). }
  split; [|split; [|split; [|split]]].
  - rewrite Hlen. apply firstn_le_length.
  - rewrite Hlen, length_firstn. unfold ranked.
    now rewrite (Permutation_length (sort_desc_perm _ _)).
  - intros m Hm. apply (universe_snapshot_iff c assets m Hnd) in Hm.
    destruct (top_members_incl _ _ _ _ _ Hm) as [Ha Ht].
    unfold tech_universe_filter, base_universe_filter in Ht.
    apply andb_true_iff in Ht. destruct Ht as [Hq Hsec].
    apply Z.eqb_eq in Hsec. auto.
  - intros m x Hm Hx Hq Hsec Hout.
    rewrite (universe_snapshot_iff c assets m Hnd) in Hm.
    rewrite (universe_snapshot_iff c assets x Hnd) in Hout.
    rewrite Htop in Hm, Hout.
    assert (Hxr : In x ranked).
    { apply (Permutation_in _ (Permutation_sym (sort_desc_perm _ _))).
      apply filter_In. split; [assumption|].
      unfold tech_universe_filter, base_universe_filter.
      rewrite Hq, Hsec. reflexivity. }
    rewrite <- (firstn_skipn (NUM_SYMBOLS c) ranked) in Hxr.
    apply in_app_or in Hxr. destruct Hxr as [Hxr | Hxr]; [contradiction|].
    exact (sorted_firstn_skipn market_cap_latest ranked
             (sort_desc_sorted _ _) _ m x Hm Hxr).
  - intro Hfew. unfold universe_snapshot. cbn [make_pipeline screen].
    apply filter_ext_in. intros a Ha.
    apply eq_true_iff_eq. unfold top_mkt_cap_tech_filter.
    rewrite (top_iff _ _ _ _ _ Hnd Ha), Htop.
    rewrite firstn_all2.
    + unfold ranked. split.
      * intro H. apply (Permutation_in _ (sort_desc_perm _ _)) in H.
        now apply filter_In in H.
      * intro H.
        apply (Permutation_in _ (Permutation_sym (sort_desc_perm _ _))).
        apply filter_In. auto.
    + unfold ranked.
      now rewrite (Permutation_length (sort_desc_perm _ _)).
Qed.

Lemma universe_snapshot_bounded_witness :
  (List.length (universe_snapshot two_symbols example_assets) <= 2)%nat
  /\ map sid (universe_snapshot two_symbols example_assets) = ["AAA"; "CCC"]
  /\ (700 # 1 <= 800 # 1)%Q
  /\ map sid (universe_snapshot (started [] [] []) example_assets)
     = ["AAA"; "BBB"; "CCC"].
Proof.
  assert (Hnd : NoDup (map sid example_assets))
    by (repeat constructor; simpl; intuition discriminate).
  destruct (universe_snapshot_bounded two_symbols example_assets Hnd)
    as (Hlen & _ & _ & Hrank & _).
  destruct (universe_snapshot_bounded (started [] [] []) example_assets Hnd)
    as (_ & _ & _ & _ & Hfew).
  split; [exact Hlen | split; [reflexivity | split]].
  - refine (Hrank (mkAsset "CCC" true 311 (800 # 1) (105 # 1)
                           (100 # 1, 105 # 1, 110 # 1))
                  (mkAsset "BBB" true 311 (700 # 1) (120 # 1)
                           (100 # 1, 105 # 1, 110 # 1)) _ _ _ _ _).
    + vm_compute. auto.
    + vm_compute. auto.
    + reflexivity.
    + reflexivity.
    + vm_compute. intuition discriminate.
  - rewrite Hfew; [reflexivity | vm_compute; lia].
Defined.

(** ** Positions of zero shares *)

(** C9.  A position of exactly zero shares is never flattened: both
    predicates are false for it whatever the price difference, the
    iteration that evaluates it leaves the context (so both counters)
    as it was and calls nothing, the whole risk check places no order
    for it, and where its price is not zero the risk check does
    exactly what it would do without visiting it. *)
Theorem zero_amount_never_flattened data c s p :
  lookup (positions c) s = Some p ->
  amount p = 0 ->
  (forall q, profit_of c p q = false /\ loss_of c p q = false)
  /\ context_of (check_position data s c) = c
  /\ events_of (check_position data s c) = []
  /\ orders_for s (events_of (check_profit_loss data c)) = []
  /\ (~ (current data s == 0)%Q ->
      check_profit_loss data c
      = for_each (remove string_dec s (keys (positions c)))
                 (check_position data) c).
Proof.
  intros Hl Ha.
  split; [intro q; split;
          [now apply profit_of_zero_amount | now apply loss_of_zero_amount]|].
  assert (Hbody : context_of (check_position data s c) = c
                  /\ events_of (check_position data s c) = []).
  { destruct (Qeq_bool (current data s) 0) eqn:Hp.
    - rewrite (check_position_zero_price _ _ _ _ Hl Hp). auto.
    - rewrite (check_position_keep _ _ _ _ Hl Hp
                 (flatten_test_zero_amount c data s p Ha)). auto. }
  destruct Hbody as [Hc He].
  split; [exact Hc | split; [exact He | split]].
  - apply orders_for_nil_iff. intros e Hin Hord.
    rewrite check_profit_loss_unfold in Hin.
    destruct (risk_loop_orders_sound data _ c e s Hin Hord)
      as (_ & _ & p' & Hl' & _ & Ht).
    assert (p' = p) by congruence. subst p'.
    rewrite (flatten_test_zero_amount c data s p Ha) in Ht. discriminate.
  - intro Hprice. rewrite check_profit_loss_unfold.
    apply risk_loop_skip. intros c' Hc'.
    apply (check_position_keep data s c' p).
    + destruct Hc' as (_ & _ & _ & _ & _ & _ & Hpos). now rewrite Hpos.
    + now apply Qeq_bool_false_iff.
    + now apply flatten_test_zero_amount.
Qed.

Lemma zero_amount_never_flattened_witness :
  let c := started [] [] [("AAA", mkPosition 0 100);
                          ("BBB", mkPosition 50 100)] in
  let d := quotes [] 98 in
  orders_for "AAA" (events_of (check_profit_loss d c)) = []
  /\ context_of (check_position d "AAA" c) = c
  /\ check_profit_loss d c = for_each ["BBB"] (check_position d) c.
Proof.
  intros c d.
  destruct (zero_amount_never_flattened d c "AAA" (mkPosition 0 100))
    as (_ & Hc & _ & Ho & Hskip).
  - reflexivity.
  - reflexivity.
  - split; [exact Ho | split; [exact Hc |]].
    apply Hskip. vm_compute. discriminate.
Defined.

(** ** A security in both signal lists *)

(** C10.  For a security that is in both signal lists and holds no
    position, entry generation requests, among its orders for that
    security, first the target values [+TRADE_SIZE] of the buy loop
    and then the target values [-TRADE_SIZE] of the sell loop, at
    least one of each, so the last target requested is [-TRADE_SIZE];
    with signal lists free of repetitions these are exactly two
    orders, [+TRADE_SIZE] then [-TRADE_SIZE].  A security with a
    positive price gets into both lists of [before_trading_start] only
    with a degenerate band, upper below lower. *)
Theorem both_lists_entry_order :
  (forall pipe_bbands data c s,
     In s (buy c) -> In s (sell c) -> ~ In s (keys (positions c)) ->
     let evs := orders_for s (events_of (generate_entries pipe_bbands data c)) in
     let nb := count_occ string_dec (buy c) s in
     let ns := count_occ string_dec (sell c) s in
     evs = repeat (OrderTargetValue s (TRADE_SIZE c)) nb
           ++ repeat (OrderTargetValue s (- TRADE_SIZE c)) ns
     /\ (1 <= nb)%nat /\ (1 <= ns)%nat
     /\ hd_error evs = Some (OrderTargetValue s (TRADE_SIZE c))
     /\ last evs (OrderTargetValue s 0) = OrderTargetValue s (- TRADE_SIZE c)
     /\ (NoDup (buy c) -> NoDup (sell c) ->
         evs = [OrderTargetValue s (TRADE_SIZE c);
                OrderTargetValue s (- TRADE_SIZE c)]))
  /\ (forall c0 c assets a,
        NoDup (map sid assets) -> In a assets -> (0 < price a)%Q ->
        let c' := context_of (before_trading_start
                                (pipeline_output (make_pipeline c0) assets) c) in
        In (sid a) (buy c') -> In (sid a) (sell c') ->
        (upper_band_factor a < lower_band_factor a)%Q).
Proof.
  split; [|exact both_signals_degenerate].
  intros pipe_bbands data c s Hb Hs Hnk evs nb ns.
  assert (Hk : has_key (positions c) s = false).
  { rewrite <- has_key_In in Hnk. now destruct (has_key (positions c) s). }
  assert (Hevs : evs = repeat (OrderTargetValue s (TRADE_SIZE c)) nb
                       ++ repeat (OrderTargetValue s (- TRADE_SIZE c)) ns).
  { subst evs. rewrite generate_entries_orders_for, Hk. reflexivity. }
  assert (Hnb : (1 <= nb)%nat)
    by (apply (proj1 (count_occ_In string_dec (buy c) s)) in Hb; subst nb; lia).
  assert (Hns : (1 <= ns)%nat)
    by (apply (proj1 (count_occ_In string_dec (sell c) s)) in Hs; subst ns; lia).
  split; [exact Hevs|]. split; [exact Hnb|]. split; [exact Hns|].
  rewrite Hevs. split; [|split].
  - destruct nb; [lia | reflexivity].
  - destruct ns as [|m]; [lia | apply last_repeat_snoc].
  - intros Hndb Hnds. subst nb ns.
    rewrite (count_occ_NoDup_In _ _ Hndb Hb), (count_occ_NoDup_In _ _ Hnds Hs).
    reflexivity.
Qed.

Lemma both_lists_entry_order_witness :
  let c := started ["AAA"; "BBB"] ["BBB"] [("AAA", mkPosition 50 100)] in
  let d := quotes [] 102 in
  orders_for "BBB" (events_of (generate_entries [] d c))
  = [OrderTargetValue "BBB" 100000; OrderTargetValue "BBB" (-100000)]
  /\ (100 < 110)%Q.
Proof.
  intros c d.
  destruct both_lists_entry_order as [Horders Hband]. split.
  - destruct (Horders [] d c "BBB") as (_ & _ & _ & _ & _ & H).
    + simpl. auto.
    + simpl. auto.
    + simpl. intros [H | []]. discriminate.
    + apply H.
      * repeat constructor; simpl; intuition discriminate.
      * repeat constructor; simpl; intuition discriminate.
  - refine (Hband two_symbols two_symbols crossed_assets
              (mkAsset "XXX" true 311 (500 # 1) (105 # 1)
                       (110 # 1, 105 # 1, 100 # 1)) _ _ _ _ _).
    + repeat constructor; simpl; intuition discriminate.
    + simpl. auto.
    + vm_compute. reflexivity.
    + vm_compute. auto.
    + vm_compute. auto.
Defined.

(** * Further properties of the callbacks *)

(** ** More on the loop of the risk check *)

Lemma ordered_securities_app e1 e2 :
  ordered_securities (e1 ++ e2)
  = ordered_securities e1 ++ ordered_securities e2.
Proof. apply flat_map_app. Qed.

Lemma ordered_securities_cons e evs :
  ordered_securities (e :: evs)
  = match order_security e with
    | Some s => [s]
    | None => []
    end ++ ordered_securities evs.
Proof. reflexivity. Qed.

Lemma ordered_securities_recorded c : ordered_securities (recorded c) = [].
Proof. unfold recorded. destruct (losers c =? 0); reflexivity. Qed.

Lemma meets_condition_same_settings c c' data s :
  same_settings c c' -> meets_condition c' data s = meets_condition c data s.
Proof.
  intro H. unfold meets_condition.
  pose proof H as (_ & _ & _ & _ & _ & _ & Hpos). rewrite Hpos.
  destruct (lookup (positions c) s) as [p|]; [|reflexivity].
  apply (flatten_test_same_settings _ _ _ _ _ H).
Qed.

Section RiskLoopMore.

Variable data : Data.

(** A loop that completes has ordered, in the order of its keys, the
    keys whose position met the condition. *)
Lemma risk_loop_ordered ks : forall c,
  outcome_of (for_each ks (check_position data) c) = Ok tt ->
  ordered_securities (events_of (for_each ks (check_position data) c))
  = filter (meets_condition c data) ks.
Proof.
  induction ks as [|k ks IH]; intros c Hok; [reflexivity|].
  rewrite for_each_cons in Hok |- *.
  destruct (check_position_cases data k c)
    as [Hl E | p Hl Hp E | p Hl Hp Ht E | p Hl Hp Ht E];
    rewrite E in Hok |- *; cbn [outcome_of events_of fst snd] in Hok |- *;
    try discriminate.
  - cbn [app filter]. unfold meets_condition at 1. rewrite Hl, Ht.
    now apply IH.
  - set (c1 := book c p (profit_of c p (price_diff_percent data k p))) in *.
    rewrite ordered_securities_app, !ordered_securities_cons,
      ordered_securities_recorded.
    cbn [filter]. unfold meets_condition at 1. rewrite Hl, Ht.
    cbn [order_security app].
    f_equal. rewrite (IH c1 Hok).
    apply filter_ext. intro s.
    apply meets_condition_same_settings. apply same_settings_book.
Qed.

(** A loop over keys none of which meets the condition, all quoted
    away from zero, does nothing. *)
Lemma risk_loop_quiet ks : forall c,
  (forall k, In k ks ->
     Qeq_bool (current data k) 0 = false
     /\ exists p, lookup (positions c) k = Some p
                  /\ flatten_test c data k p = false) ->
  for_each ks (check_position data) c = (Ok tt, c, []).
Proof.
  induction ks as [|k ks IH]; intros c Hks; [reflexivity|].
  rewrite for_each_cons.
  destruct (Hks k (or_introl eq_refl)) as (Hp & p & Hl & Ht).
  rewrite (check_position_keep data k c p Hl Hp Ht).
  rewrite IH; [reflexivity|].
  intros k' Hk'. apply Hks. now right.
Qed.

End RiskLoopMore.

(** ** The risk check: frame, orders *)

(** X2.  However it ends, the risk check changes nothing of the
    context but the two counters: the four trading parameters, both
    signal lists and the portfolio come out as they went in. *)
Theorem risk_check_frame data c :
  let c' := context_of (check_profit_loss data c) in
  NUM_SYMBOLS c' = NUM_SYMBOLS c
  /\ TRADE_SIZE c' = TRADE_SIZE c
  /\ MIN_PROFIT_PERCENT c' = MIN_PROFIT_PERCENT c
  /\ MAX_LOSS_PERCENT c' = MAX_LOSS_PERCENT c
  /\ buy c' = buy c /\ sell c' = sell c
  /\ positions c' = positions c.
Proof.
  cbv zeta. rewrite check_profit_loss_unfold.
  exact (proj1 (risk_loop_invariant data (keys (positions c)) c)).
Qed.

(** X3.  A risk check that meets no zero price places exactly one
    order for each position that meets the condition of line 119 and
    none for any other, in the order in which the portfolio lists the
    positions; and whether or not it completes, every order it places
    is a target of zero percent. *)
Theorem risk_check_order_sequence data c :
  (forall e s,
     In e (events_of (check_profit_loss data c)) ->
     order_security e = Some s -> e = OrderTargetPercent s 0)
  /\ ((forall k, In k (keys (positions c)) -> ~ (current data k == 0)%Q) ->
      ordered_securities (events_of (check_profit_loss data c))
      = filter (meets_condition c data) (keys (positions c))).
Proof.
  split.
  - intros e s Hin Hord. rewrite check_profit_loss_unfold in Hin.
    now destruct (risk_loop_orders_sound data _ c e s Hin Hord).
  - intro Hprices.
    pose proof (check_profit_loss_completes data c Hprices) as Hok.
    rewrite check_profit_loss_unfold in Hok |- *.
    now apply risk_loop_ordered.
Qed.

Lemma risk_check_order_sequence_witness :
  let c := started ["BBB"] [] [("CCC", mkPosition 50 100);
                               ("BBB", mkPosition 50 100);
                               ("DDD", mkPosition 5 100);
                               ("AAA", mkPosition (-7) 100)] in
  let d := quotes [("DDD", 100 # 1)] 102 in
  ordered_securities (events_of (check_profit_loss d c)) = ["CCC"; "AAA"].
Proof.
  intros c d.
  rewrite (proj2 (risk_check_order_sequence d c)).
  - reflexivity.
  - intros k [<- | [<- | [<- | [<- | []]]]]; vm_compute; discriminate.
Defined.

(** X4.  A risk check in which every open position is quoted away from
    zero and none meets the condition of line 119 does nothing at all:
    it completes, leaves the context as it was and calls nothing.  An
    empty portfolio is the simplest case. *)
Theorem risk_check_quiet data c :
  (forall k, In k (keys (positions c)) -> ~ (current data k == 0)%Q) ->
  (forall s p, lookup (positions c) s = Some p ->
               flatten_test c data s p = false) ->
  check_profit_loss data c = (Ok tt, c, []).
Proof.
  intros Hprices Hquiet. rewrite check_profit_loss_unfold.
  apply risk_loop_quiet. intros k Hk. split.
  - apply Qeq_bool_false_iff. now apply Hprices.
  - destruct (In_keys_lookup _ _ Hk) as [p Hp]. exists p.
    split; [assumption | now apply Hquiet].
Qed.

Lemma risk_check_quiet_witness :
  let c := started [] [] [("AAA", mkPosition 50 100);
                          ("BBB", mkPosition (-50) 100)] in
  let d := quotes [("AAA", 1005 # 10)] (995 # 10) in
  check_profit_loss d c = (Ok tt, c, []).
Proof.
  intros c d. apply risk_check_quiet.
  - intros k [<- | [<- | []]]; vm_compute; discriminate.
  - intros s p Hl. simpl in Hl.
    destruct (String.eqb s "AAA") eqn:Ea.
    + apply String.eqb_eq in Ea. subst s. injection Hl as <-.
      vm_compute. reflexivity.
    + destruct (String.eqb s "BBB") eqn:Eb; [|discriminate].
      apply String.eqb_eq in Eb. subst s. injection Hl as <-.
      vm_compute. reflexivity.
Defined.

(** ** The prices at which a position is closed *)

Lemma Qdiv_gt_iff (m x p : Q) :
  (0 < p)%Q -> (m < x / p)%Q <-> (m * p < x)%Q.
Proof.
  intro Hp.
  assert (Hne : ~ (p == 0)%Q) by (intro E; rewrite E in Hp; lra).
  assert (Heq : ((x - m * p) / p == x / p - m)%Q) by (field; exact Hne).
  pose proof (Qdiv_pos_iff (x - m * p) p Hp) as Hiff.
  rewrite Heq in Hiff. split; intro H.
  - assert (H0 : (0 < x / p - m)%Q) by lra. apply Hiff in H0. lra.
  - assert (H0 : (0 < x - m * p)%Q) by lra. apply Hiff in H0. lra.
Qed.

Lemma price_diff_gt_iff data s p (m : Q) :
  (0 < current data s)%Q ->
  (m < price_diff_percent data s p)%Q
  <-> (100 * cost_basis p < (100 - m) * current data s)%Q.
Proof.
  intro Hp. unfold price_diff_percent.
  rewrite (Qdiv_gt_iff _ _ _ Hp). split; intro; lra.
Qed.

Lemma price_diff_lt_iff data s p (m : Q) :
  (0 < current data s)%Q ->
  (m < - price_diff_percent data s p)%Q
  <-> ((100 + m) * current data s < 100 * cost_basis p)%Q.
Proof.
  intro Hp. unfold price_diff_percent.
  assert (Hne : ~ (current data s == 0)%Q)
    by (intro E; rewrite E in Hp; lra).
  assert (Heq : (- ((current data s - cost_basis p) * 100 / current data s)
                 == (cost_basis p - current data s) * 100 / current data s)%Q)
    by (field; exact Hne).
  rewrite Heq, (Qdiv_gt_iff _ _ _ Hp). split; intro; lra.
Qed.

(** X5.  The percentage is taken on the current price, not on the cost
    basis, and the comparisons are strict.  At a positive price a long
    position is a profit exit exactly when
    [(100 - MIN_PROFIT_PERCENT) * price > 100 * cost_basis] and a loss
    exit exactly when [(100 + MAX_LOSS_PERCENT) * price < 100 *
    cost_basis]; for a short position the two roles swap.  So with the
    threshold 1 a long position bought at 100 is not yet a profit exit
    at 101. *)
Theorem exit_trigger_prices c data s p :
  (0 < current data s)%Q ->
  let price := current data s in
  let pdp := price_diff_percent data s p in
  (0 < amount p ->
   (profit_of c p pdp = true
    <-> (100 * cost_basis p
         < (100 - inject_Z (MIN_PROFIT_PERCENT c)) * price)%Q)
   /\ (loss_of c p pdp = true
       <-> ((100 + inject_Z (MAX_LOSS_PERCENT c)) * price
            < 100 * cost_basis p)%Q))
  /\ (amount p < 0 ->
      (profit_of c p pdp = true
       <-> ((100 + inject_Z (MIN_PROFIT_PERCENT c)) * price
            < 100 * cost_basis p)%Q)
      /\ (loss_of c p pdp = true
          <-> (100 * cost_basis p
               < (100 - inject_Z (MAX_LOSS_PERCENT c)) * price)%Q)).
Proof.
  intros Hp price pdp. subst price pdp.
  rewrite profit_of_iff, loss_of_iff.
  unfold code_profit, code_loss, spec_is_long, code_is_short.
  rewrite !(price_diff_gt_iff data s p _ Hp), !(price_diff_lt_iff data s p _ Hp).
  split; intro Ha; split; split;
    try (intros [[H1 H2] | [H1 H2]]; [assumption || lia | assumption || lia]);
    intro H; [left | left | right | right]; split; assumption.
Qed.

Lemma exit_trigger_prices_witness :
  let c := started [] [] [("AAA", mkPosition 50 100)] in
  let d := quotes [] 101 in
  profit_of c (mkPosition 50 100)
            (price_diff_percent d "AAA" (mkPosition 50 100)) = false.
Proof.
  intros c d.
  destruct (exit_trigger_prices c d "AAA" (mkPosition 50 100)) as [Hlong _].
  - vm_compute. reflexivity.
  - destruct Hlong as [Hprofit _]; [simpl; lia|].
    apply not_true_is_false. intro E.
    apply Hprofit in E. vm_compute in E. discriminate.
Defined.

(** ** Repeating a risk check *)

(** X6.  The risk check keeps no note of what it has flattened.  Run a
    second time on the same prices before the portfolio has changed,
    it completes again, places the same orders in the same order and
    adds the same exit sizes to the counters once more, so each exit
    is counted twice (thresholds not negative, no price zero). *)
Theorem risk_check_repeats data c :
  0 <= MIN_PROFIT_PERCENT c ->
  0 <= MAX_LOSS_PERCENT c ->
  (forall k, In k (keys (positions c)) -> ~ (current data k == 0)%Q) ->
  let r1 := check_profit_loss data c in
  let r2 := check_profit_loss data (context_of r1) in
  outcome_of r2 = Ok tt
  /\ ordered_securities (events_of r2) = ordered_securities (events_of r1)
  /\ winners (context_of r2)
     = winners c + 2 * total (profit_exit_size c data) (keys (positions c))
  /\ losers (context_of r2)
     = losers c + 2 * total (loss_exit_size c data) (keys (positions c)).
Proof.
  intros Hmin Hmax Hprices r1 r2. subst r1 r2.
  pose proof (check_profit_loss_completes data c Hprices) as Hok1.
  rewrite !check_profit_loss_unfold in *.
  destruct (risk_loop_invariant data (keys (positions c)) c) as (Hs & _ & _).
  set (c1 := context_of (for_each (keys (positions c)) (check_position data) c))
    in *.
  pose proof Hs as (_ & _ & Hmin1 & Hmax1 & _ & _ & Hpos).
  rewrite Hpos.
  assert (Hok2 : outcome_of (for_each (keys (positions c))
                               (check_position data) c1) = Ok tt).
  { apply risk_loop_outcome. intros k Hk. rewrite Hpos. split; [assumption|].
    apply Qeq_bool_false_iff. now apply Hprices. }
  split; [exact Hok2|]. split.
  - rewrite (risk_loop_ordered data _ c Hok1), (risk_loop_ordered data _ c1 Hok2).
    apply filter_ext. intro s. now apply meets_condition_same_settings.
  - destruct (risk_loop_counters data _ c Hmin Hmax Hok1) as [Hw1 Hl1].
    destruct (risk_loop_counters data (keys (positions c)) c1) as [Hw2 Hl2];
      [now rewrite Hmin1 | now rewrite Hmax1 | exact Hok2 |].
    rewrite Hw2, Hl2.
    rewrite (total_ext _ _ _
               (fun x => profit_exit_size_same_settings c c1 data x Hs)).
    rewrite (total_ext _ _ _
               (fun x => loss_exit_size_same_settings c c1 data x Hs)).
    fold c1 in Hw1, Hl1. rewrite Hw1, Hl1. split; lia.
Qed.

Lemma risk_check_repeats_witness :
  let c := started [] [] [("AAA", mkPosition 50 100);
                          ("BBB", mkPosition (-7) 100)] in
  let d := quotes [] 102 in
  winners (context_of (check_profit_loss d
                         (context_of (check_profit_loss d c)))) = 100
  /\ losers (context_of (check_profit_loss d
                           (context_of (check_profit_loss d c)))) = 14.
Proof.
  intros c d.
  destruct (risk_check_repeats d c) as (_ & _ & Hw & Hl).
  - vm_compute. discriminate.
  - vm_compute. discriminate.
  - intros k [<- | [<- | []]]; vm_compute; discriminate.
  - rewrite Hw, Hl. split; reflexivity.
Defined.

(** ** What the risk check records *)

Lemma last_record_app name e1 e2 :
  last_record name (e1 ++ e2)
  = match last_record name e2 with
    | Some v => Some v
    | None => last_record name e1
    end.
Proof.
  induction e1 as [|e e1 IH]; simpl.
  - now destruct (last_record name e2).
  - rewrite IH. now destruct (last_record name e2).
Qed.

Lemma last_record_winners_recorded c :
  last_record "Winners" (recorded c) = Some (inject_Z (winners c)).
Proof. unfold recorded. destruct (losers c =? 0); reflexivity. Qed.

Lemma last_record_losers_recorded c :
  last_record "Losers" (recorded c) = Some (inject_Z (losers c)).
Proof. unfold recorded. destruct (losers c =? 0); reflexivity. Qed.

(** ** The signal lists of the day *)

Lemma buy_after_signals c assets :
  buy (after_signals c assets)
  = map sid (filter buy_filter (universe_snapshot c assets)).
Proof.
  unfold after_signals, before_trading_start, set_signals, pipeline_output,
    universe_snapshot.
  cbn [context_of fst snd buy]. rewrite filter_map_swap, map_map.
  reflexivity.
Qed.

Lemma sell_after_signals c assets :
  sell (after_signals c assets)
  = map sid (filter sell_filter (universe_snapshot c assets)).
Proof.
  unfold after_signals, before_trading_start, set_signals, pipeline_output,
    universe_snapshot.
  cbn [context_of fst snd sell]. rewrite filter_map_swap, map_map.
  reflexivity.
Qed.

Lemma NoDup_map_filter {A B} (f : A -> B) (g : A -> bool) (l : list A) :
  NoDup (map f l) -> NoDup (map f (filter g l)).
Proof.
  induction l as [|a l IH]; simpl; [auto|].
  intro Hnd. inversion Hnd as [|? ? Hnotin Hnd']; subst.
  destruct (g a); [|auto]. simpl. constructor; [|auto].
  intro Hin. apply Hnotin. apply in_map_iff in Hin.
  destruct Hin as (x & Hx & Hin). apply filter_In in Hin.
  apply in_map_iff. exists x. tauto.
Qed.

Lemma universe_snapshot_length c assets :
  NoDup (map sid assets) ->
  (List.length (universe_snapshot c assets) <= NUM_SYMBOLS c)%nat.
Proof.
  intro Hnd.
  transitivity (List.length (top_members (NUM_SYMBOLS c) market_cap_latest
                               tech_universe_filter assets)).
  - apply NoDup_incl_length.
    + unfold universe_snapshot. apply NoDup_filter.
      eapply NoDup_map_inv; eauto.
    + intros a Ha. now apply (universe_snapshot_iff c assets a Hnd).
  - unfold top_members. apply firstn_le_length.
Qed.

(** X8.  [before_trading_start] replaces both signal lists by the
    flagged securities of the day's universe, in table order, and
    touches nothing else of the context.  On a table with distinct
    identifiers neither list repeats a security and neither is longer
    than [NUM_SYMBOLS]. *)
Theorem signal_lists_of_the_day c assets :
  let c' := after_signals c assets in
  buy c' = map sid (filter buy_filter (universe_snapshot c assets))
  /\ sell c' = map sid (filter sell_filter (universe_snapshot c assets))
  /\ winners c' = winners c /\ losers c' = losers c
  /\ positions c' = positions c
  /\ NUM_SYMBOLS c' = NUM_SYMBOLS c /\ TRADE_SIZE c' = TRADE_SIZE c
  /\ MIN_PROFIT_PERCENT c' = MIN_PROFIT_PERCENT c
  /\ MAX_LOSS_PERCENT c' = MAX_LOSS_PERCENT c
  /\ (NoDup (map sid assets) ->
      NoDup (buy c') /\ NoDup (sell c')
      /\ (List.length (buy c') <= NUM_SYMBOLS c)%nat
      /\ (List.length (sell c') <= NUM_SYMBOLS c)%nat).
Proof.
  cbv zeta. rewrite buy_after_signals, sell_after_signals.
  repeat (split; [reflexivity|]).
  intro Hnd.
  assert (Hu : NoDup (map sid (universe_snapshot c assets)))
    by (unfold universe_snapshot; now apply NoDup_map_filter).
  pose proof (universe_snapshot_length c assets Hnd) as Hlen.
  split; [now apply NoDup_map_filter|].
  split; [now apply NoDup_map_filter|].
  rewrite !length_map. split.
  - etransitivity; [apply filter_length_le | exact Hlen].
  - etransitivity; [apply filter_length_le | exact Hlen].
Qed.

Lemma signal_lists_of_the_day_witness :
  NoDup (buy (after_signals two_symbols example_assets))
  /\ buy (after_signals two_symbols example_assets) = ["AAA"]
  /\ sell (after_signals (started [] [] []) example_assets) = ["BBB"].
Proof.
  destruct (signal_lists_of_the_day two_symbols example_assets)
    as (_ & _ & _ & _ & _ & _ & _ & _ & _ & H).
  destruct H as (Hb & _).
  - repeat constructor; simpl; intuition discriminate.
  - split; [exact Hb | split; reflexivity].
Defined.

(** ** The orders of entry generation *)

Lemma ordered_securities_signal_log pipe_bbands :
  ordered_securities (signal_log pipe_bbands) = [].
Proof.
  unfold signal_log.
  destruct (existsb (fun r => row_buy (snd r)) pipe_bbands),
           (existsb (fun r => row_sell (snd r)) pipe_bbands);
    reflexivity.
Qed.

Lemma ordered_securities_long_entries c xs :
  ordered_securities (flat_map (long_entry c) xs)
  = filter (fun s => negb (has_key (positions c) s)) xs.
Proof.
  induction xs as [|x xs IH]; [reflexivity|].
  cbn [flat_map filter]. rewrite ordered_securities_app, IH.
  unfold long_entry. now destruct (has_key (positions c) x).
Qed.

Lemma ordered_securities_short_entries c xs :
  ordered_securities (flat_map (short_entry c) xs)
  = filter (fun s => negb (has_key (positions c) s)) xs.
Proof.
  induction xs as [|x xs IH]; [reflexivity|].
  cbn [flat_map filter]. rewrite ordered_securities_app, IH.
  unfold short_entry. now destruct (has_key (positions c) x).
Qed.

Lemma generate_entries_ordered pipe_bbands data c :
  ordered_securities (events_of (generate_entries pipe_bbands data c))
  = filter (fun s => negb (has_key (positions c) s)) (buy c)
    ++ filter (fun s => negb (has_key (positions c) s)) (sell c).
Proof.
  rewrite generate_entries_run. cbn [events_of snd].
  now rewrite !ordered_securities_app, ordered_securities_signal_log,
    ordered_securities_long_entries, ordered_securities_short_entries.
Qed.

Lemma generate_entries_count pipe_bbands data c :
  (count_orders (events_of (generate_entries pipe_bbands data c))
   <= List.length (buy c) + List.length (sell c))%nat.
Proof.
  unfold count_orders. rewrite generate_entries_ordered, length_app.
  apply Nat.add_le_mono; apply filter_length_le.
Qed.

(** X9.  Entry generation orders, first along the buy list and then
    along the sell list, exactly the listed securities that hold no
    position.  A target value it requests is [+TRADE_SIZE] for a
    security of the buy list and [-TRADE_SIZE] for one of the sell
    list, and nothing else; it never places a target-percent order,
    so it never flattens; and it places no more orders than the two
    lists have entries. *)
Theorem entry_orders_characterised pipe_bbands data c :
  let evs := events_of (generate_entries pipe_bbands data c) in
  ordered_securities evs
  = filter (fun s => negb (has_key (positions c) s)) (buy c)
    ++ filter (fun s => negb (has_key (positions c) s)) (sell c)
  /\ (forall s v,
        In (OrderTargetValue s v) evs
        <-> ~ In s (keys (positions c))
            /\ ((In s (buy c) /\ v = TRADE_SIZE c)
                \/ (In s (sell c) /\ v = - TRADE_SIZE c)))
  /\ (forall s q, ~ In (OrderTargetPercent s q) evs)
  /\ (count_orders evs <= List.length (buy c) + List.length (sell c))%nat.
Proof.
  cbv zeta.
  split; [apply generate_entries_ordered|].
  split; [|split; [|apply generate_entries_count]].
  - intros s v. rewrite generate_entries_run. cbn [events_of snd].
    rewrite !in_app_iff, !in_flat_map. split.
    + intros [H | [(x & Hx & H) | (x & Hx & H)]].
      * unfold signal_log in H. apply in_app_or in H.
        destruct H as [H | H];
          [destruct (existsb (fun r => row_buy (snd r)) pipe_bbands)
          |destruct (existsb (fun r => row_sell (snd r)) pipe_bbands)];
          simpl in H; try tauto; destruct H as [H | []]; discriminate.
      * unfold long_entry in H.
        destruct (has_key (positions c) x) eqn:Hk; simpl in H; [tauto|].
        destruct H as [H | [H | []]]; [|discriminate].
        injection H as <- <-. split; [|auto].
        rewrite <- has_key_In. congruence.
      * unfold short_entry in H.
        destruct (has_key (positions c) x) eqn:Hk; simpl in H; [tauto|].
        destruct H as [H | [H | []]]; [|discriminate].
        injection H as <- <-. split; [|auto].
        rewrite <- has_key_In. congruence.
    + intros [Hnk Hsig].
      assert (Hk : has_key (positions c) s = false).
      { rewrite <- has_key_In in Hnk. now destruct (has_key (positions c) s). }
      right. destruct Hsig as [[Hb ->] | [Hs ->]]; [left | right];
        exists s; (split; [assumption|]).
      * unfold long_entry. rewrite Hk. now left.
      * unfold short_entry. rewrite Hk. now left.
  - intros s q Hin.
    assert (Ho : order_security (OrderTargetPercent s q) = Some s)
      by reflexivity.
    rewrite generate_entries_run in Hin. cbn [events_of snd] in Hin.
    rewrite !in_app_iff, !in_flat_map in Hin.
    destruct Hin as [H | [(x & Hx & H) | (x & Hx & H)]].
    + unfold signal_log in H. apply in_app_or in H.
      destruct H as [H | H];
        [destruct (existsb (fun r => row_buy (snd r)) pipe_bbands)
        |destruct (existsb (fun r => row_sell (snd r)) pipe_bbands)];
        simpl in H; try tauto; destruct H as [H | []]; discriminate.
    + unfold long_entry in H.
      destruct (has_key (positions c) x); simpl in H; [tauto|].
      destruct H as [H | [H | []]]; discriminate.
    + unfold short_entry in H.
      destruct (has_key (positions c) x); simpl in H; [tauto|].
      destruct H as [H | [H | []]]; discriminate.
Qed.

Lemma entry_orders_characterised_witness :
  let c := started ["AAA"; "BBB"] ["CCC"] [("BBB", mkPosition 50 100)] in
  In (OrderTargetValue "CCC" (-100000))
     (events_of (generate_entries [] (quotes [] 102) c)).
Proof.
  intro c.
  apply (proj1 (proj2 (entry_orders_characterised [] (quotes [] 102) c))).
  split.
  - simpl. intuition discriminate.
  - right. split; [simpl; auto | reflexivity].
Defined.

(** X10.  On a day whose table has distinct identifiers, entry
    generation after [before_trading_start] places at most
    [2 * NUM_SYMBOLS] orders, whatever the portfolio; with the
    parameters of [initialize] that is at most twenty orders. *)
Theorem entries_per_day_bounded c assets :
  NoDup (map sid assets) ->
  (forall portfolio pipe_bbands data,
     (count_orders
        (events_of (generate_entries pipe_bbands data
                      (with_positions (after_signals c assets) portfolio)))
      <= 2 * NUM_SYMBOLS c)%nat)
  /\ (forall portfolio pipe_bbands data,
        (count_orders
           (events_of
              (generate_entries pipe_bbands data
                 (with_positions
                    (after_signals (context_of (initialize c)) assets)
                    portfolio)))
         <= 20)%nat).
Proof.
  intro Hnd.
  assert (Hgen : forall c0 portfolio pipe_bbands data,
            (count_orders
               (events_of (generate_entries pipe_bbands data
                             (with_positions (after_signals c0 assets)
                                             portfolio)))
             <= 2 * NUM_SYMBOLS c0)%nat).
  { intros c0 portfolio pipe_bbands data.
    etransitivity; [apply generate_entries_count|].
    cbn [with_positions set_positions context_of fst snd buy sell].
    rewrite buy_after_signals, sell_after_signals, !length_map.
    pose proof (universe_snapshot_length c0 assets Hnd) as Hlen.
    pose proof (filter_length_le buy_filter (universe_snapshot c0 assets)).
    pose proof (filter_length_le sell_filter (universe_snapshot c0 assets)).
    lia. }
  split; [apply Hgen|].
  intros portfolio pipe_bbands data.
  exact (Hgen (context_of (initialize c)) portfolio pipe_bbands data).
Qed.

Lemma entries_per_day_bounded_witness :
  (count_orders
     (events_of (generate_entries [] (quotes [] 102)
                   (with_positions (after_signals two_symbols example_assets)
                                   [])))
   <= 4)%nat.
Proof.
  refine (proj1 (entries_per_day_bounded two_symbols example_assets _)
            [] [] (quotes [] 102)).
  repeat constructor; simpl; intuition discriminate.
Defined.

(** ** A day without signals *)

Lemma filter_none {A} (f : A -> bool) (l : list A) :
  (forall x, In x l -> f x = false) -> filter f l = [].
Proof.
  induction l as [|a l IH]; intro H; [reflexivity|].
  simpl. rewrite (H a (or_introl eq_refl)). apply IH.
  intros x Hx. apply H. now right.
Qed.

Lemma existsb_none {A} (f : A -> bool) (l : list A) :
  (forall x, In x l -> f x = false) -> existsb f l = false.
Proof.
  induction l as [|a l IH]; intro H; [reflexivity|].
  simpl. rewrite (H a (or_introl eq_refl)). apply IH.
  intros x Hx. apply H. now right.
Qed.

Lemma pipeline_output_no_sector_member c assets :
  (forall a, In a assets -> tech_universe_filter assets a = false) ->
  pipeline_output (make_pipeline c) assets = [].
Proof.
  intro Hnone. unfold pipeline_output. cbn [make_pipeline screen].
  rewrite (filter_none (top_mkt_cap_tech_filter c assets) assets);
    [reflexivity|].
  intros a Ha. unfold top_mkt_cap_tech_filter, top, top_members.
  rewrite (filter_none (tech_universe_filter assets) assets Hnone).
  cbn [sort_desc]. now rewrite firstn_nil.
Qed.

(** X11.  A day without signals passes without a call to the platform:
    when no row of the frame is flagged, [before_trading_start] leaves
    both lists empty and entry generation then completes, changes
    nothing and calls nothing, not even the log.  This is so in
    particular when no asset of the table is a sector member of the
    base universe: the frame is then empty. *)
Theorem day_without_signals :
  (forall pipe_bbands c data,
     (forall r, In r pipe_bbands ->
                row_buy (snd r) = false /\ row_sell (snd r) = false) ->
     let c' := context_of (before_trading_start pipe_bbands c) in
     buy c' = [] /\ sell c' = []
     /\ generate_entries pipe_bbands data c' = (Ok tt, c', []))
  /\ (forall c assets,
        (forall a, In a assets -> tech_universe_filter assets a = false) ->
        pipeline_output (make_pipeline c) assets = []
        /\ buy (after_signals c assets) = []
        /\ sell (after_signals c assets) = []).
Proof.
  split.
  - intros pipe_bbands c data Hnone c'. subst c'.
    assert (Hb : filter (fun r : Security * IndicatorRow => row_buy (snd r))
                   pipe_bbands = [])
      by (apply filter_none; intros r Hr; now apply Hnone).
    assert (Hs : filter (fun r : Security * IndicatorRow => row_sell (snd r))
                   pipe_bbands = [])
      by (apply filter_none; intros r Hr; now apply Hnone).
    unfold before_trading_start, set_signals.
    cbn [context_of fst snd buy sell]. rewrite Hb, Hs.
    split; [reflexivity|]. split; [reflexivity|].
    rewrite generate_entries_run. cbn [buy sell flat_map app].
    unfold signal_log.
    rewrite (existsb_none (fun r => row_buy (snd r)) pipe_bbands),
      (existsb_none (fun r => row_sell (snd r)) pipe_bbands);
      [reflexivity | |]; intros r Hr; now apply Hnone.
  - intros c assets Hnone. unfold after_signals.
    rewrite (pipeline_output_no_sector_member c assets Hnone).
    repeat split; reflexivity.
Qed.

Lemma day_without_signals_witness :
  let c := context_of (before_trading_start
                         (pipeline_output (make_pipeline two_symbols)
                            [mkAsset "CCC" true 311 (800 # 1) (105 # 1)
                                     (100 # 1, 105 # 1, 110 # 1)])
                         two_symbols) in
  generate_entries
    (pipeline_output (make_pipeline two_symbols)
       [mkAsset "CCC" true 311 (800 # 1) (105 # 1)
                (100 # 1, 105 # 1, 110 # 1)])
    (quotes [] 105) c
  = (Ok tt, c, [])
  /\ pipeline_output (make_pipeline two_symbols)
       [mkAsset "DDD" true 102 (990 # 1) (50 # 1) (40 # 1, 50 # 1, 60 # 1)]
     = [].
Proof.
  intro c. destruct day_without_signals as [Hflags Hsector]. split.
  - refine (proj2 (proj2 (Hflags _ two_symbols (quotes [] 105) _))).
    intros r [<- | []]. split; reflexivity.
  - refine (proj1 (Hsector two_symbols _ _)).
    intros a [<- | []]. reflexivity.
Defined.

(** ** Prices below zero *)

Lemma factor_gt_percent_negative (x p : Q) :
  (p < 0)%Q ->
  factor_gt (factor_div (x * 100) p) 0 = true <-> (x < 0)%Q.
Proof.
  intro Hp. unfold factor_gt, factor_div, fdiv.
  assert (Hne : ~ (p == 0)%Q) by (intro E; rewrite E in Hp; lra).
  rewrite (proj2 (Qeq_bool_false_iff p 0) Hne).
  cbn [fgt]. rewrite Qgtb_iff.
  assert (Heq : (x * 100 / p == (- (x * 100)) / (- p))%Q)
    by (field; exact Hne).
  rewrite Heq, Qdiv_pos_iff by lra. split; intro; lra.
Qed.

(** X12.  The reading of the flags depends on the sign of the price.
    For a row whose price is below zero the buy flag is set exactly
    when the price is above the lower band and the sell flag exactly
    when it is below the upper band, so a price inside a proper band
    sets both flags at once. *)
Theorem negative_price_flags c assets s row :
  In (s, row) (pipeline_output (make_pipeline c) assets) ->
  (row_price row < 0)%Q ->
  (row_buy row = true <-> (row_lower_band row < row_price row)%Q)
  /\ (row_sell row = true <-> (row_price row < row_upper_band row)%Q)
  /\ ((row_lower_band row < row_price row)%Q ->
      (row_price row < row_upper_band row)%Q ->
      row_buy row = true /\ row_sell row = true).
Proof.
  intros Hin Hp.
  destruct (pipeline_output_row c assets s row Hin) as (a & _ & _ & _ & ->).
  cbn [make_pipeline columns row_buy row_sell row_price row_lower_band
       row_upper_band] in *.
  assert (Hbuy : buy_filter a = true <-> (lower_band_factor a < price a)%Q).
  { unfold buy_filter, buy_percent_factor.
    rewrite (factor_gt_percent_negative _ _ Hp). split; intro; lra. }
  assert (Hsell : sell_filter a = true <-> (price a < upper_band_factor a)%Q).
  { unfold sell_filter, sell_percent_factor.
    rewrite (factor_gt_percent_negative _ _ Hp). split; intro; lra. }
  split; [exact Hbuy|]. split; [exact Hsell|].
  intros H1 H2. split; [now apply Hbuy | now apply Hsell].
Qed.

Lemma negative_price_flags_witness :
  let row := columns (make_pipeline two_symbols)
               (mkAsset "NNN" true 311 (500 # 1) (-5 # 1)
                        (-10 # 1, -5 # 1, -1 # 1)) in
  row_buy row = true /\ row_sell row = true.
Proof.
  intro row.
  destruct (negative_price_flags two_symbols negative_assets "NNN" row)
    as (_ & _ & Hboth).
  - vm_compute. auto.
  - vm_compute. reflexivity.
  - apply Hboth; vm_compute; reflexivity.
Defined.

(** ** From entry to exit within a day *)

(** X13.  A security for which entry generation has just placed an
    order cannot be flattened while the signal lists stay as they are:
    whatever the portfolio and the prices at a later risk check, the
    risk check places no order for it. *)
Theorem entered_today_not_flattened pipe_bbands data c e s :
  In e (events_of (generate_entries pipe_bbands data c)) ->
  order_security e = Some s ->
  forall data' portfolio,
    orders_for s
      (events_of
         (check_profit_loss data'
            (with_positions
               (context_of (generate_entries pipe_bbands data c))
               portfolio)))
    = [].
Proof.
  intros Hin Hord data' portfolio.
  destruct (generate_entries_order_inv _ _ _ _ _ Hin Hord) as [Hsig _].
  assert (Hc : context_of (generate_entries pipe_bbands data c) = c)
    by now rewrite generate_entries_run.
  rewrite Hc. set (c' := with_positions c portfolio).
  assert (Hsig' : In s (buy c') \/ In s (sell c')) by exact Hsig.
  apply orders_for_nil_iff. intros e' Hin' Hord'.
  rewrite check_profit_loss_unfold in Hin'.
  destruct (risk_loop_orders_sound data' _ c' e' s Hin' Hord')
    as (_ & _ & p & _ & _ & Ht).
  rewrite (flatten_test_signalled c' data' s p Hsig') in Ht. discriminate.
Qed.

Lemma entered_today_not_flattened_witness :
  let c := started ["AAA"] [] [] in
  orders_for "AAA"
    (events_of
       (check_profit_loss (quotes [] 120)
          (with_positions
             (context_of (generate_entries [] (quotes [] 100) c))
             [("AAA", mkPosition 1000 100)])))
  = [].
Proof.
  intro c.
  apply (entered_today_not_flattened [] (quotes [] 100) c
           (OrderTargetValue "AAA" 100000) "AAA").
  - vm_compute. auto.
  - reflexivity.
Defined.

Lemma dispatch_keeps_signals cb c :
  recomputes_signals cb = false ->
  buy (context_of (dispatch cb c)) = buy c
  /\ sell (context_of (dispatch cb c)) = sell c.
Proof.
  destruct cb as [assets portfolio | assets portfolio data | portfolio data];
    intro H; [discriminate | |];
    unfold dispatch, bind, set_positions, get_context.
  - rewrite generate_entries_run. cbn. auto.
  - unfold handle_data.
    match goal with
    | |- context [check_profit_loss data ?c1] =>
        pose proof (risk_loop_invariant data (keys (positions c1)) c1) as Hi;
        rewrite <- check_profit_loss_unfold in Hi;
        destruct (check_profit_loss data c1) as [[r c2] e2]
    end.
    cbn [context_of fst snd] in *.
    destruct Hi as ((_ & _ & _ & _ & Hb & Hs & _) & _).
    cbn in Hb, Hs. auto.
Qed.

(** X14.  Between two recomputations the signal lists are frozen:
    along any sequence of entry-generation and per-minute callbacks,
    however the portfolio and the prices move and however the
    sequence ends, both lists stay what [before_trading_start] last
    made them. *)
Theorem signals_frozen_within_day cbs c :
  (forall cb, In cb cbs -> recomputes_signals cb = false) ->
  buy (context_of (run cbs c)) = buy c
  /\ sell (context_of (run cbs c)) = sell c.
Proof.
  unfold run. revert c. induction cbs as [|cb cbs IH]; intros c Hcbs.
  - split; reflexivity.
  - rewrite for_each_cons.
    destruct (dispatch_keeps_signals cb c (Hcbs cb (or_introl eq_refl)))
      as [Hb Hs].
    destruct (dispatch cb c) as [[[u|x] c1] e1];
      cbn [context_of fst snd] in *.
    + destruct (IH c1) as [Hb' Hs'].
      * intros cb' Hcb'. apply Hcbs. now right.
      * split; congruence.
    + auto.
Qed.

Lemma signals_frozen_within_day_witness :
  let c := started ["AAA"] ["BBB"] [] in
  buy (context_of
         (run [GenerateEntries example_assets [] (quotes [] 100);
               HandleData [("AAA", mkPosition 1000 100)] (quotes [] 120);
               HandleData [("AAA", mkPosition 1000 100)] (quotes [] 0)] c))
  = ["AAA"].
Proof.
  intro c.
  refine (proj1 (signals_frozen_within_day _ c _)).
  intros cb [<- | [<- | [<- | []]]]; reflexivity.
Defined.

(** * The risk check on the platform's floats *)

(** ** Running the loop body on floats *)

Lemma check_position_float_no_key data s c :
  lookup (positions c) s = None ->
  check_position_float data s c = (Raised KeyError, c, []).
Proof.
  intros Hl. unfold check_position_float, bind, get_context, getitem.
  rewrite Hl. reflexivity.
Qed.

Lemma check_position_float_raises data s c p :
  lookup (positions c) s = Some p ->
  division_raises data s = true ->
  check_position_float data s c = (Raised ZeroDivisionError, c, []).
Proof.
  intros Hl Hr. unfold division_raises in Hr.
  unfold check_position_float, bind, get_context, getitem, float_truediv.
  rewrite Hl. unfold ret at 1.
  destruct (number_kind data); [|discriminate].
  rewrite Hr. reflexivity.
Qed.

Lemma check_position_float_unfold data s c p :
  lookup (positions c) s = Some p ->
  division_raises data s = false ->
  check_position_float data s c
  = if flatten_test_float c data s p
    then (Ok tt,
          book c p (profit_of_float c p (float_price_diff_percent data s p)),
          LogInfo (Flattening s (amount p) (cost_basis p)
                     (float_current data s)
                     (profit_of_float c p (float_price_diff_percent data s p))
                     (loss_of_float c p (float_price_diff_percent data s p)))
          :: OrderTargetPercent s 0
          :: recorded (book c p (profit_of_float c p
                                   (float_price_diff_percent data s p))))
    else (Ok tt, c, []).
Proof.
  intros Hl Hr. unfold division_raises in Hr.
  assert (Hdiv : float_truediv (number_kind data)
                   (fmul (fsub (float_current data s) (Finite (cost_basis p)))
                         (Finite 100))
                   (float_current data s) c
                 = (Ok (float_price_diff_percent data s p), c, [])).
  { unfold float_truediv, float_price_diff_percent.
    destruct (number_kind data); [rewrite Hr|]; reflexivity. }
  unfold check_position_float, bind, get_context, getitem.
  rewrite Hl. unfold ret at 1. rewrite Hdiv.
  unfold flatten_test_float.
  destruct (negb (contains (buy c) s) && negb (contains (sell c) s) && _);
    [|reflexivity].
  unfold log_info, order_target_percent, emit, book.
  destruct (profit_of_float c p (float_price_diff_percent data s p));
    unfold set_winners, set_losers; rewrite record_vars_run; reflexivity.
Qed.

(** One evaluation of the loop body leaves the settings alone and
    never lowers a counter. *)
Lemma check_position_float_settings data s c :
  same_settings c (context_of (check_position_float data s c)).
Proof.
  destruct (lookup (positions c) s) as [p|] eqn:Hl.
  - destruct (division_raises data s) eqn:Hr.
    + rewrite (check_position_float_raises data s c p Hl Hr).
      apply same_settings_refl.
    + rewrite (check_position_float_unfold data s c p Hl Hr).
      destruct (flatten_test_float c data s p).
      * apply same_settings_book.
      * apply same_settings_refl.
  - rewrite (check_position_float_no_key data s c Hl).
    apply same_settings_refl.
Qed.

(** A missing price: every comparison with NaN is false, so the
    condition of line 119 is false and the body does nothing. *)
Lemma float_price_diff_percent_nan data s p :
  float_current data s = NaN -> float_price_diff_percent data s p = NaN.
Proof. unfold float_price_diff_percent. intros ->. reflexivity. Qed.

Lemma flatten_test_float_nan c data s p :
  float_current data s = NaN -> flatten_test_float c data s p = false.
Proof.
  intro Hn. unfold flatten_test_float, profit_of_float, loss_of_float.
  rewrite (float_price_diff_percent_nan data s p Hn). cbn [fneg fgt].
  now rewrite !andb_false_r.
Qed.

Lemma division_raises_nan data s :
  float_current data s = NaN -> division_raises data s = false.
Proof.
  unfold division_raises. intros ->. now destruct (number_kind data).
Qed.

Lemma check_position_float_nan data s c p :
  lookup (positions c) s = Some p ->
  float_current data s = NaN ->
  check_position_float data s c = (Ok tt, c, []).
Proof.
  intros Hl Hn.
  rewrite (check_position_float_unfold data s c p Hl
             (division_raises_nan data s Hn)).
  now rewrite (flatten_test_float_nan c data s p Hn).
Qed.

(** ** The loop on floats *)

(** A key whose evaluation changes nothing, in any context with the
    same settings, can be left out of a loop whose body keeps the
    settings. *)
Lemma for_each_skip (body : Security -> M unit) (s : Security) :
  (forall k c, same_settings c (context_of (body k c))) ->
  forall ks c,
    (forall c', same_settings c c' -> body s c' = (Ok tt, c', [])) ->
    for_each ks body c = for_each (remove string_dec s ks) body c.
Proof.
  intros Hset ks. induction ks as [|k ks IH]; intros c Hs; [reflexivity|].
  cbn [remove]. destruct (string_dec s k) as [<- | Hne].
  - rewrite for_each_cons, (Hs c (same_settings_refl c)).
    rewrite <- (IH c Hs).
    destruct (for_each ks body c) as [[r c2] e2]. reflexivity.
  - rewrite !for_each_cons. pose proof (Hset k c) as Hk.
    destruct (body k c) as [[[u|e] c1] e1]; [|reflexivity].
    cbn [context_of fst snd] in Hk.
    rewrite (IH c1); [reflexivity|].
    intros c' Hc'. apply Hs. eapply same_settings_trans; eauto.
Qed.

Lemma check_profit_loss_float_unfold data c :
  check_profit_loss_float data c
  = for_each (keys (positions c)) (check_position_float data) c.
Proof.
  unfold check_profit_loss_float, bind, get_context.
  destruct (for_each _ _ c) as [[r c2] e2]. reflexivity.
Qed.

Section FloatLoop.

Variable data : FloatData.

Lemma float_loop_settings ks c :
  same_settings c (context_of (for_each ks (check_position_float data) c)).
Proof.
  apply (for_each_preserves same_settings (check_position_float data)).
  - exact same_settings_refl.
  - exact same_settings_trans.
  - intros k c'. apply check_position_float_settings.
Qed.

(** The loop completes exactly when every key it visits has a position
    and a division that does not raise. *)
Lemma float_loop_outcome ks : forall c,
  outcome_of (for_each ks (check_position_float data) c) = Ok tt
  <-> (forall k, In k ks ->
         In k (keys (positions c)) /\ division_raises data k = false).
Proof.
  induction ks as [|k ks IH]; intro c.
  - simpl. split; [intros _ s [] | reflexivity].
  - rewrite for_each_cons.
    destruct (lookup (positions c) k) as [p|] eqn:Hl.
    + destruct (division_raises data k) eqn:Hr.
      * rewrite (check_position_float_raises data k c p Hl Hr).
        cbn [outcome_of fst]. split; [discriminate|]. intro H.
        destruct (H k (or_introl eq_refl)) as [_ Hk]. congruence.
      * pose proof (check_position_float_settings data k c) as Hs.
        rewrite (check_position_float_unfold data k c p Hl Hr) in Hs |- *.
        destruct (flatten_test_float c data k p);
          cbn [outcome_of context_of fst snd] in Hs |- *;
          match goal with
          | |- fst (fst (for_each ks _ ?c1)) = _ <-> _ =>
              fold (outcome_of (for_each ks (check_position_float data) c1))
          | _ => idtac
          end;
          rewrite IH;
          destruct Hs as (_ & _ & _ & _ & _ & _ & Hpos); rewrite ?Hpos;
          (split;
           [ intros H s [<- | Hin]; [|auto];
             split; [eapply lookup_Some_In_keys; eauto | assumption]
           | intros H s Hin; apply H; now right ]).
    + rewrite (check_position_float_no_key data k c Hl).
      cbn [outcome_of fst]. split; [discriminate|]. intro H.
      destruct (H k (or_introl eq_refl)) as [Hk _].
      apply In_keys_lookup in Hk. destruct Hk as [v Hv]. congruence.
Qed.

(** With every key in the portfolio the loop never fails on a lookup. *)
Lemma float_loop_no_key_error ks : forall c,
  (forall k, In k ks -> In k (keys (positions c))) ->
  outcome_of (for_each ks (check_position_float data) c) <> Raised KeyError.
Proof.
  induction ks as [|k ks IH]; intros c Hks; [discriminate|].
  rewrite for_each_cons.
  destruct (In_keys_lookup _ _ (Hks k (or_introl eq_refl))) as [p Hl].
  destruct (division_raises data k) eqn:Hr.
  - rewrite (check_position_float_raises data k c p Hl Hr). discriminate.
  - pose proof (check_position_float_settings data k c) as Hs.
    rewrite (check_position_float_unfold data k c p Hl Hr) in Hs |- *.
    destruct (flatten_test_float c data k p);
      cbn [outcome_of context_of fst snd] in Hs |- *;
      destruct Hs as (_ & _ & _ & _ & _ & _ & Hpos);
      apply IH; intros k' Hk'; rewrite ?Hpos; apply Hks; now right.
Qed.

(** Every order of the loop is a target of zero percent for a key it
    visited. *)
Lemma float_loop_orders_visited ks : forall c e s,
  In e (events_of (for_each ks (check_position_float data) c)) ->
  order_security e = Some s ->
  e = OrderTargetPercent s 0 /\ In s ks.
Proof.
  induction ks as [|k ks IH]; intros c e s Hin Hord.
  - destruct Hin.
  - rewrite for_each_cons in Hin.
    destruct (lookup (positions c) k) as [p|] eqn:Hl.
    + destruct (division_raises data k) eqn:Hr.
      * rewrite (check_position_float_raises data k c p Hl Hr) in Hin.
        destruct Hin.
      * rewrite (check_position_float_unfold data k c p Hl Hr) in Hin.
        destruct (flatten_test_float c data k p);
          cbn [events_of fst snd] in Hin.
        -- cbn [app In] in Hin. destruct Hin as [<- | [<- | Hin]].
           ++ discriminate.
           ++ simpl in Hord. injection Hord as <-. split; [reflexivity|].
              now left.
           ++ apply in_app_or in Hin. destruct Hin as [Hin | Hin].
              ** apply recorded_no_order in Hin. congruence.
              ** destruct (IH _ e s Hin Hord). split; [assumption|].
                 now right.
        -- cbn [app] in Hin. destruct (IH _ e s Hin Hord).
           split; [assumption | now right].
    + rewrite (check_position_float_no_key data k c Hl) in Hin.
      destruct Hin.
Qed.

End FloatLoop.

(** ** Quoted prices *)

Lemma for_each_ext {A} (f g : A -> M unit) (xs : list A) :
  (forall x c, f x c = g x c) ->
  forall c, for_each xs f c = for_each xs g c.
Proof.
  intro H. induction xs as [|x xs IH]; intro c; [reflexivity|].
  rewrite !for_each_cons, H.
  destruct (g x c) as [[[u|e] c1] e1]; [|reflexivity].
  now rewrite IH.
Qed.

(** On quoted prices the loop body on floats is the loop body on
    rationals. *)
Lemma check_position_float_quoted data s c :
  check_position_float (quoted data) s c = check_position data s c.
Proof.
  destruct (lookup (positions c) s) as [p|] eqn:Hl.
  - destruct (Qeq_bool (current data s) 0) eqn:Hz.
    + rewrite (check_position_zero_price data s c p Hl Hz).
      now apply (check_position_float_raises (quoted data) s c p Hl).
    + rewrite (check_position_float_unfold (quoted data) s c p Hl Hz).
      rewrite (check_position_unfold data s c p Hl Hz), flatten_branch_run.
      unfold flatten_test_float, flatten_test, float_price_diff_percent,
        price_diff_percent, quoted.
      cbn [float_current fsub fmul fdiv]. rewrite Hz. reflexivity.
  - rewrite (check_position_no_key data s c Hl).
    now apply check_position_float_no_key.
Qed.

Lemma check_profit_loss_float_quoted data c :
  check_profit_loss_float (quoted data) c = check_profit_loss data c.
Proof.
  rewrite check_profit_loss_float_unfold, check_profit_loss_unfold.
  apply for_each_ext. intros s c'. apply check_position_float_quoted.
Qed.

(** ** A missing price and a price of zero *)

(** C2, as amended.  A security whose current price is missing (NaN)
    has its decision skipped for that cycle: the iteration that
    evaluates it completes, leaves the context as it was and calls
    nothing, because every comparison with NaN is false.  The skip is
    isolated: the risk check does exactly what it would do without
    visiting that security, and places no order for it.  Where no open
    position is quoted at zero the whole risk check completes, missing
    prices or not.  A price of zero is not covered: the division of
    line 109 has no guard. *)
Theorem missing_price_skipped data c s :
  float_current data s = NaN ->
  (forall p, lookup (positions c) s = Some p ->
             check_position_float data s c = (Ok tt, c, []))
  /\ check_profit_loss_float data c
     = for_each (remove string_dec s (keys (positions c)))
                (check_position_float data) c
  /\ orders_for s (events_of (check_profit_loss_float data c)) = []
  /\ ((forall k, In k (keys (positions c)) ->
                 is_zero (float_current data k) = false) ->
      outcome_of (check_profit_loss_float data c) = Ok tt).
Proof.
  intro Hn.
  assert (Hskip : check_profit_loss_float data c
                  = for_each (remove string_dec s (keys (positions c)))
                             (check_position_float data) c).
  { rewrite check_profit_loss_float_unfold.
    destruct (in_dec string_dec s (keys (positions c))) as [Hin | Hnin].
    - destruct (In_keys_lookup _ _ Hin) as [p Hl].
      apply for_each_skip.
      + intros k c'. apply check_position_float_settings.
      + intros c' (_ & _ & _ & _ & _ & _ & Hpos).
        apply (check_position_float_nan data s c' p); [|assumption].
        now rewrite Hpos.
    - now rewrite notin_remove. }
  split; [|split; [exact Hskip | split]].
  - intros p Hl. now apply (check_position_float_nan data s c p).
  - rewrite Hskip. apply orders_for_nil_iff. intros e Hin Hord.
    destruct (float_loop_orders_visited data _ c e s Hin Hord) as [_ Hs].
    now apply remove_In in Hs.
  - intro Hzero. rewrite check_profit_loss_float_unfold.
    apply float_loop_outcome. intros k Hk. split; [assumption|].
    unfold division_raises. destruct (number_kind data); auto.
Qed.

Lemma missing_price_skipped_witness :
  let c := started [] [] [("AAA", mkPosition 50 100);
                          ("BBB", mkPosition 50 100)] in
  let d := float_quotes NumpyFloat64 [("AAA", NaN)] (Finite 102) in
  check_position_float d "AAA" c = (Ok tt, c, [])
  /\ check_profit_loss_float d c = for_each ["BBB"] (check_position_float d) c
  /\ orders_for "AAA" (events_of (check_profit_loss_float d c)) = []
  /\ outcome_of (check_profit_loss_float d c) = Ok tt.
Proof.
  intros c d.
  destruct (missing_price_skipped d c "AAA") as (Hbody & Hskip & Hord & Hok).
  - reflexivity.
  - split; [apply (Hbody (mkPosition 50 100)); reflexivity|].
    split; [exact Hskip|]. split; [exact Hord|].
    apply Hok. intros k [<- | [<- | []]]; reflexivity.
Defined.

(** C2, as the document words it, fails at a price of zero, whichever
    numbers the platform hands over.  With a first position quoted at
    zero and a second one in profit: on built-in floats the division
    raises [ZeroDivisionError], which ends the risk check before the
    second position is looked at, although that position is flattened
    when the first is not there; on numpy floats the quotient is minus
    infinity, so the decision for the first position is not skipped,
    the position is flattened as a loss and [losers] grows by 50. *)
Lemma zero_price_not_skipped :
  let c := started [] [] [("AAA", mkPosition 50 100);
                          ("BBB", mkPosition 50 100)] in
  let builtin := float_quotes BuiltinFloat [("AAA", Finite 0)] (Finite 102) in
  let numpy := float_quotes NumpyFloat64 [("AAA", Finite 0)] (Finite 102) in
  (check_profit_loss_float builtin c = (Raised ZeroDivisionError, c, [])
   /\ In (OrderTargetPercent "BBB" 0)
         (events_of (check_profit_loss_float builtin
                       (started [] [] [("BBB", mkPosition 50 100)]))))
  /\ (In (OrderTargetPercent "AAA" 0)
         (events_of (check_profit_loss_float numpy c))
      /\ losers (context_of (check_profit_loss_float numpy c))
         = losers c + 50).
Proof.
  intros c builtin numpy. split; split.
  - reflexivity.
  - vm_compute. tauto.
  - vm_compute. tauto.
  - reflexivity.
Qed.

(** ** When the risk check raises *)

(** X1.  The risk check never fails on the lookup of line 105, since
    the keys come from the portfolio itself.  It completes exactly
    when no open position is quoted at exactly zero in built-in
    floats: on numpy floats it always completes, and a missing price
    never raises.  On built-in floats a price of zero raises
    [ZeroDivisionError] in the iteration that meets it, whatever the
    position and the signal lists, because the division of line 109
    comes before the test of line 119. *)
Theorem risk_check_error_behaviour data c :
  outcome_of (check_profit_loss_float data c) <> Raised KeyError
  /\ (outcome_of (check_profit_loss_float data c) = Ok tt
      <-> forall k, In k (keys (positions c)) ->
            ~ (number_kind data = BuiltinFloat
               /\ is_zero (float_current data k) = true))
  /\ (number_kind data = NumpyFloat64 ->
      outcome_of (check_profit_loss_float data c) = Ok tt)
  /\ (forall s p,
        number_kind data = BuiltinFloat ->
        lookup (positions c) s = Some p ->
        is_zero (float_current data s) = true ->
        check_position_float data s c = (Raised ZeroDivisionError, c, [])).
Proof.
  assert (Hiff : outcome_of (check_profit_loss_float data c) = Ok tt
                 <-> forall k, In k (keys (positions c)) ->
                       ~ (number_kind data = BuiltinFloat
                          /\ is_zero (float_current data k) = true)).
  { rewrite check_profit_loss_float_unfold, float_loop_outcome.
    unfold division_raises. split.
    - intros H k Hk [Hkind Hz]. destruct (H k Hk) as [_ Hr].
      rewrite Hkind in Hr. congruence.
    - intros H k Hk. split; [assumption|].
      destruct (number_kind data) eqn:Hkind; [|reflexivity].
      destruct (is_zero (float_current data k)) eqn:Hz; [|reflexivity].
      exfalso. apply (H k Hk). auto. }
  split; [|split; [exact Hiff | split]].
  - rewrite check_profit_loss_float_unfold.
    apply float_loop_no_key_error. auto.
  - intro Hkind. apply Hiff. intros k _ [Hb _]. congruence.
  - intros s p Hkind Hl Hz.
    apply (check_position_float_raises data s c p Hl).
    unfold division_raises. now rewrite Hkind.
Qed.

Lemma risk_check_error_behaviour_witness :
  let c := started ["AAA"] [] [("AAA", mkPosition 0 100)] in
  check_position_float (float_quotes BuiltinFloat [] (Finite 0)) "AAA" c
  = (Raised ZeroDivisionError, c, [])
  /\ outcome_of (check_profit_loss_float
                   (float_quotes NumpyFloat64 [] (Finite 0)) c) = Ok tt.
Proof.
  intro c. split.
  - refine (proj2 (proj2 (proj2
              (risk_check_error_behaviour
                 (float_quotes BuiltinFloat [] (Finite 0)) c)))
              "AAA" (mkPosition 0 100) _ _ _); reflexivity.
  - refine (proj1 (proj2 (proj2
              (risk_check_error_behaviour
                 (float_quotes NumpyFloat64 [] (Finite 0)) c))) _).
    reflexivity.
Defined.

(** ** What the risk check records *)

Lemma last_record_ratio_recorded c :
  last_record "WinLoseRatio" (recorded c)
  = if losers c =? 0 then None
    else Some (inject_Z (winners c) / inject_Z (losers c))%Q.
Proof. unfold recorded. destruct (losers c =? 0); reflexivity. Qed.

Lemma last_record_after_order name msg s evs :
  last_record name (LogInfo msg :: OrderTargetPercent s 0 :: evs)
  = last_record name evs.
Proof. cbn [last_record]. now destruct (last_record name evs). Qed.

(** The records of a loop are those of its last flattening: the
    counters as the loop leaves them, with their ratio when [losers]
    is not zero; a loop that records nothing has done nothing. *)
Lemma risk_loop_records data ks : forall c,
  match last_record "Winners"
          (events_of (for_each ks (check_position data) c)) with
  | Some v =>
      v = inject_Z (winners (context_of
                               (for_each ks (check_position data) c)))
      /\ last_record "Losers"
           (events_of (for_each ks (check_position data) c))
         = Some (inject_Z (losers (context_of
                                     (for_each ks (check_position data) c))))
      /\ (losers (context_of (for_each ks (check_position data) c)) <> 0 ->
          last_record "WinLoseRatio"
            (events_of (for_each ks (check_position data) c))
          = Some (inject_Z (winners (context_of
                                       (for_each ks (check_position data) c)))
                  / inject_Z (losers (context_of
                                        (for_each ks (check_position data) c))))%Q)
  | None =>
      events_of (for_each ks (check_position data) c) = []
      /\ context_of (for_each ks (check_position data) c) = c
  end.
Proof.
  induction ks as [|k ks IH]; intro c; [split; reflexivity|].
  rewrite for_each_cons.
  destruct (check_position_cases data k c)
    as [Hl E | p Hl Hp E | p Hl Hp Ht E | p Hl Hp Ht E];
    rewrite E; cbn [context_of events_of fst snd];
    try (split; reflexivity).
  - cbn [app]. apply IH.
  - set (c1 := book c p (profit_of c p (price_diff_percent data k p))).
    specialize (IH c1).
    set (tail := for_each ks (check_position data) c1) in *.
    rewrite !last_record_app.
    destruct (last_record "Winners" (events_of tail)) as [v|] eqn:Ew.
    + destruct IH as (Hv & Hlo & Hratio).
      split; [exact Hv|]. split; [now rewrite Hlo|].
      intro Hne. now rewrite (Hratio Hne).
    + destruct IH as (Hnil & Hctx). rewrite Hnil, Hctx.
      rewrite !last_record_after_order. cbn [last_record].
      rewrite last_record_winners_recorded,
        last_record_losers_recorded, last_record_ratio_recorded.
      split; [reflexivity|]. split; [reflexivity|].
      intro Hne. apply Z.eqb_neq in Hne. now rewrite Hne.
Qed.

(** X7.  What a risk check records is current.  If it records
    anything, the value last recorded as Winners and the value last
    recorded as Losers are the counters as the risk check leaves them,
    and when [losers] is then not zero the WinLoseRatio last recorded
    is their quotient; if it records nothing, it has called nothing
    and left the context as it was.  [record_vars] divides the two
    counters with the raising division and yet never raises: the test
    of line 167 keeps the division away from a zero divisor, and the
    ratio is recorded exactly when [losers] is not zero. *)
Theorem recorded_values_current data c :
  let r := check_profit_loss data c in
  match last_record "Winners" (events_of r) with
  | Some v =>
      v = inject_Z (winners (context_of r))
      /\ last_record "Losers" (events_of r)
         = Some (inject_Z (losers (context_of r)))
      /\ (losers (context_of r) <> 0 ->
          last_record "WinLoseRatio" (events_of r)
          = Some (inject_Z (winners (context_of r))
                  / inject_Z (losers (context_of r)))%Q)
  | None => events_of r = [] /\ context_of r = c
  end
  /\ outcome_of (record_vars data c) = Ok tt
  /\ context_of (record_vars data c) = c
  /\ last_record "WinLoseRatio" (events_of (record_vars data c))
     = (if losers c =? 0 then None
        else Some (inject_Z (winners c) / inject_Z (losers c))%Q)
  /\ outcome_of (truediv (inject_Z (winners c)) (inject_Z 0) c)
     = Raised ZeroDivisionError.
Proof.
  cbv zeta. rewrite check_profit_loss_unfold, record_vars_run.
  split; [apply risk_loop_records|].
  split; [reflexivity|]. split; [reflexivity|].
  split; [apply last_record_ratio_recorded | reflexivity].
Qed.

Lemma recorded_values_current_witness :
  let c := started [] [] [("AAA", mkPosition 50 100);
                          ("BBB", mkPosition (-7) 100)] in
  let r := check_profit_loss (quotes [] 102) c in
  last_record "WinLoseRatio" (events_of r)
  = Some (inject_Z (winners (context_of r))
          / inject_Z (losers (context_of r)))%Q
  /\ losers (context_of r) = 7.
Proof.
  intros c r.
  pose proof (proj1 (recorded_values_current (quotes [] 102) c)) as H.
  cbv zeta in H. fold r in H.
  destruct (last_record "Winners" (events_of r)) as [v|] eqn:E.
  - destruct H as (_ & _ & Hratio). split; [|reflexivity].
    apply Hratio. vm_compute. discriminate.
  - vm_compute in E. discriminate.
Defined.

Lemma for_each_ext_in {A} (f g : A -> M unit) (xs : list A) :
  (forall x, In x xs -> forall c, f x c = g x c) ->
  forall c, for_each xs f c = for_each xs g c.
Proof.
  induction xs as [|x xs IH]; intros H c; [reflexivity|].
  rewrite !for_each_cons, (H x (or_introl eq_refl)).
  destruct (g x c) as [[[u|e] c1] e1]; [|reflexivity].
  rewrite IH; [reflexivity|]. intros y Hy. apply H. now right.
Qed.

(** Away from a price of zero the kind of number makes no difference:
    on quoted prices handed over as numpy numbers the risk check is
    again the risk check on rationals. *)
Lemma check_profit_loss_float_quoted_numpy data c :
  (forall k, In k (keys (positions c)) -> ~ (current data k == 0)%Q) ->
  check_profit_loss_float (quoted_numpy data) c = check_profit_loss data c.
Proof.
  intro Hprices.
  rewrite check_profit_loss_float_unfold, check_profit_loss_unfold.
  apply for_each_ext_in. intros s Hs c'.
  assert (Hz : Qeq_bool (current data s) 0 = false)
    by (apply Qeq_bool_false_iff; now apply Hprices).
  destruct (lookup (positions c') s) as [p|] eqn:Hl.
  - rewrite (check_position_float_unfold (quoted_numpy data) s c' p Hl eq_refl).
    rewrite (check_position_unfold data s c' p Hl Hz), flatten_branch_run.
    unfold flatten_test_float, flatten_test, float_price_diff_percent,
      price_diff_percent, quoted_numpy.
    cbn [float_current fsub fmul fdiv]. rewrite Hz. reflexivity.
  - rewrite (check_position_no_key data s c' Hl).
    now apply check_position_float_no_key.
Qed.
